(** * banderilla-hapi: the queue dashboard plugin, embedded and verified

    The repository holds two versions of one hapi plugin:
    - the plugin with the [getQueues] factory and the five finished
      handlers (module [Banderilla] below), and
    - [lib/index.ts], the earlier skeleton with a static [queues] option,
      four empty handlers and handlers registered without [bind]
      (module [LibIndex] below).

    Both are thin adapters over collaborators that live outside the
    repository: the queue library (bull), its jobs, the redis client and
    the [redis-info] parser.  A handler is embedded as a program over a
    typed signature of collaborator calls; running a program against a
    world (one answer per call) yields the handler's result and the log of
    the calls it issued, in order.

    The handlers catch nothing: a call that rejects ends the request in
    the host's error handling.  A world answers every call, so what is
    proved about a reply is proved for the requests whose calls
    resolve. *)

From stdpp Require Import gmap strings list fin_maps.

Set Warnings "-register-all".

Open Scope Z_scope.
Open Scope string_scope.

(** ** JavaScript values *)

(** The values that flow through the handlers.  [VObj] is an object
    literal with its keys in source order; [VPromise v] is a promise
    object that was never awaited and that settles with [v]. *)
Inductive jsval : Type :=
| VUndefined
| VNull
| VBool (b : bool)
| VNum (n : Z)
| VStr (s : string)
| VArr (l : list jsval)
| VObj (o : list (string * jsval))
| VPromise (v : jsval).

(** JavaScript truthiness, as used by [if (x)], [!x] and [x || y].
    Numbers are the integer-valued ones; objects, arrays and promises are
    always truthy. *)
Definition truthy (v : jsval) : bool :=
  match v with
  | VUndefined | VNull => false
  | VBool b => b
  | VNum n => negb (Z.eqb n 0)
  | VStr s => negb (String.eqb s "")
  | VArr _ | VObj _ | VPromise _ => true
  end.

(** [a || b] *)
Definition js_or (a b : jsval) : jsval := if truthy a then a else b.

(** [v === 'lit'] for a string [lit]: only the string primitive with
    the same characters is strictly equal to it. *)
Definition strict_eq_str (v : jsval) (lit : string) : bool :=
  match v with
  | VStr s => String.eqb s lit
  | _ => false
  end.

(** A JavaScript object used as a dictionary (the parsed store info, the
    [stats] accumulator, [request.query], [request.params], a job's
    JSON form).  Only own properties are modelled. *)
Abbreviation jsobj := (gmap string jsval).

(** [o[k]] and [o.k]: reading a property that is not there gives
    [undefined]. *)
Definition prop (o : jsobj) (k : string) : jsval := default VUndefined (o !! k).

(** ** Collaborators *)

(** The redis connection of a queue. *)
Record Client : Type := { client_ref : nat }.

(** A job handle: [toJSON()] and [opts] are what [formatJob] reads. *)
Record Job : Type := {
  job_ref : nat;
  toJSON : jsobj;
  opts : jsobj
}.

(** A queue handle: [name] and [client] are the two properties read. *)
Record Queue : Type := {
  queue_ref : nat;
  name : string;
  client : Client
}.

(** The calls a handler makes into code outside the repository, indexed
    by the type of what the call resolves to. *)
Inductive call : Type -> Type :=
| GetQueues : call (list Queue)
    (* options.getQueues() *)
| Info (c : Client) : call string
    (* redisClient.info() *)
| ParseRedisInfo (raw : string) : call jsobj
    (* parseRedisInfo(raw), from the redis-info package *)
| GetJobCounts (q : Queue) (types : list string) : call jsval
    (* queue.getJobCounts(...types) *)
| GetJobs (q : Queue) (types : jsval) (start stop : Z) : call (list Job)
    (* queue.getJobs(types, start, stop) *)
| GetJob (q : Queue) (jobId : jsval) : call (option Job)
    (* queue.getJob(jobId): a job, or nothing *)
| JobRetry (j : Job) : call jsval
    (* job.retry() *)
| JobPromote (j : Job) : call jsval
    (* job.promote() *)
| Clean (q : Queue) (grace : Z) (status : jsval) : call jsval.
    (* queue.clean(grace, status) *)

(** What each call resolves to at the time of a request. *)
Definition World : Type := forall X : Type, call X -> X.

(** One entry of the call log. *)
Inductive event : Type :=
| Called {X : Type} (c : call X).

(** ** Programs over collaborator calls *)

Inductive prog (A : Type) : Type :=
| Ret (a : A)
| Call {X : Type} (c : call X) (k : X -> prog A).
Arguments Ret {A} a.
Arguments Call {A X} c k.

Fixpoint pbind {A B : Type} (p : prog A) (f : A -> prog B) : prog B :=
  match p with
  | Ret a => f a
  | Call c k => Call c (fun x => pbind (k x) f)
  end.

(** Running a program: every call is answered by the world and logged. *)
Fixpoint run {A : Type} (w : World) (p : prog A) : A * list event :=
  match p with
  | Ret a => (a, [])
  | Call c k => let '(a, log) := run w (k (w _ c)) in (a, Called c :: log)
  end.

(** A handler either returns or dies with an uncaught exception. *)
Inductive outcome (A : Type) : Type :=
| Returned (a : A)
| Thrown (e : string).
Arguments Returned {A} a.
Arguments Thrown {A} e.

(** Handlers are methods: they run against the object [this] refers to
    ([S] is its state) and may call collaborators. *)
Definition M (S A : Type) : Type := S -> prog (outcome A * S).

Definition ret {S A : Type} (a : A) : M S A := fun s => Ret (Returned a, s).

Definition throw {S A : Type} (e : string) : M S A := fun s => Ret (Thrown e, s).

Definition bind {S A B : Type} (m : M S A) (f : A -> M S B) : M S B :=
  fun s =>
    pbind (m s) (fun '(o, s') =>
      match o with
      | Returned a => f a s'
      | Thrown e => Ret (Thrown e, s')
      end).

Notation "x <- m ;; k" := (bind m (fun x => k))
  (at level 100, m at next level, right associativity).

(** [await c]: issue the call and wait for what it resolves to. *)
Definition await {S X : Type} (c : call X) : M S X :=
  fun s => Call c (fun x => Ret (Returned x, s)).

(** [c] without [await]: the call is issued, the caller keeps the
    promise. *)
Definition unawaited {S : Type} (c : call jsval) : M S jsval :=
  fun s => Call c (fun x => Ret (Returned (VPromise x), s)).

(** [this.field] *)
Definition this {S : Type} : M S S := fun s => Ret (Returned s, s).

(** [this.field = v] *)
Definition assign {S : Type} (f : S -> S) : M S unit := fun s => Ret (Returned tt, f s).

(** [await Promise.all(xs.map(async x => body))].  The callbacks of the
    real program interleave at their awaits; a world answers a call the
    same way whenever it is issued, so the values collected are those of
    running the callbacks one after the other, and only the relative
    order of log entries of different callbacks is a choice of this
    model. *)
Fixpoint promise_all {S A B : Type} (body : A -> M S B) (xs : list A) : M S (list B) :=
  match xs with
  | [] => ret []
  | x :: rest =>
      y <- body x ;;
      ys <- promise_all body rest ;;
      ret (y :: ys)
  end.

(** The operations of a method are stepped by their equations, not
    unfolded by simplification. *)
Arguments bind : simpl never.
Arguments await : simpl never.
Arguments unawaited : simpl never.
Arguments this : simpl never.
Arguments assign : simpl never.
Arguments ret : simpl never.
Arguments throw : simpl never.

(** ** What both versions of the plugin declare alike *)

(** The parts of hapi the plugin touches. *)
Module Hapi.

(** The request, as far as the handlers read it. *)
Record Request : Type := {
  query : option jsobj;   (* request.query, possibly missing *)
  params : jsobj          (* request.params *)
}.

(** [h.response(source)] with its status code; [h.response()] has the
    source [undefined], an empty body. *)
Record Response : Type := {
  source : jsval;
  statusCode : Z
}.

Definition response (src : jsval) : Response := {| source := src; statusCode := 200 |}.

Definition code (n : Z) (r : Response) : Response := {| source := source r; statusCode := n |}.

(** A route as handed to [server.route]; [H] is the type of handlers. *)
Record Route (H : Type) : Type := {
  method : string;
  path : string;
  handler : H;
  options : jsobj
}.
Arguments method {H} r.
Arguments path {H} r.
Arguments handler {H} r.
Arguments options {H} r.

End Hapi.

(** One element of the [data] array of the index reply. *)
Record QueueEntry : Type := {
  entry_name : string;
  counts : jsval;
  jobs : list jsval
}.

(** What a handler hands back to hapi. *)
Inductive reply : Type :=
| Undefined                                          (* fell off the end *)
| StatsQueues (stats : jsobj) (queues : list jsval)  (* {stats, queues} *)
| StatsData (stats : jsobj) (data : list QueueEntry) (* {stats, data} *)
| Respond (r : Hapi.Response).                            (* a toolkit response *)

Definition metrics : list string :=
  [ "redis_version";
    "used_memory";
    "mem_fragmentation_ratio";
    "connected_clients";
    "blocked_clients" ].

Definition statuses : list string :=
  [ "active";
    "completed";
    "delayed";
    "failed";
    "paused";
    "waiting" ].

Definition formatJob (job : Job) : jsval :=
  let jobProps := toJSON job in
  VObj
    [ ("id", prop jobProps "id");
      ("timestamp", prop jobProps "timestamp");
      ("processedOn", prop jobProps "processedOn");
      ("finishedOn", prop jobProps "finishedOn");
      ("progress", prop jobProps "progress");
      ("attempts", prop jobProps "attemptsMade");
      ("delay", prop (opts job) "delay");
      ("failedReason", prop jobProps "failedReason");
      ("stacktrace", prop jobProps "stacktrace");
      ("opts", prop jobProps "opts");
      ("data", prop jobProps "data");
      ("name", prop jobProps "name") ].

(** The [metrics.reduce] of the index handler together with the
    assignment of [total_system_memory] that follows it. *)
Definition collect_stats (redisInfo : jsobj) : jsobj :=
  let stats :=
    foldl (fun acc metric =>
             if truthy (prop redisInfo metric)
             then <[ metric := prop redisInfo metric ]> acc
             else acc)
          ∅ metrics in
  <[ "total_system_memory" :=
       js_or (prop redisInfo "total_system_memory") (prop redisInfo "maxmemory") ]> stats.

(** [query[queue.name] === 'latest' ? statuses : query[queue.name]] *)
Definition status_filter (query : jsobj) (queue : Queue) : jsval :=
  if strict_eq_str (prop query (name queue)) "latest"
  then VArr (VStr <$> statuses)
  else prop query (name queue).

(** [queues.find(q => q.name === queueName)] *)
Definition find_queue (queues : list Queue) (queueName : jsval) : option Queue :=
  find (fun q => strict_eq_str queueName (name q)) queues.

(** A handler is a method of an object with state [S]; a route carries
    one. *)
Abbreviation Handler S := (Hapi.Request -> M S reply).
Abbreviation Route S := (Hapi.Route (Handler S)).

(** A template literal prints a missing value as [undefined]. *)
Definition template (v : option string) : string := default "undefined" v.

(** [{...routeOptions}]: spreading a missing value gives the empty object. *)
Definition spread (o : option jsobj) : jsobj := default ∅ o.

(** ** The plugin with the [getQueues] factory *)

Module Banderilla.

(** The factory [getQueues] of the options is the call [GetQueues]. *)
Record PluginOptions : Type := {
  basePath : option string;
  routeOptions : option jsobj
}.

(** [queues!: any[]] is unset until [onPostStart] has run. *)
Record Internals : Type := {
  options : PluginOptions;
  queues : option (list Queue)
}.

Definition notFound : Hapi.Response :=
  Hapi.code 404
    (Hapi.response
       (VObj [ ("statusCode", VNum 404);
               ("error", VStr "Not Found");
               ("message", VStr "Not Found") ])).

Definition GRACE_TIME_MS : Z := 5000.
Definition LIMIT : Z := 1000.

(** [const { queues } = this.internals]; every handler uses the list in
    its next statement ([queues.length], [queues.find]), which throws
    when the field is still unset. *)
Definition internals_queues {A : Type} (k : list Queue -> M Internals A) : M Internals A :=
  internals <- this ;;
  match queues internals with
  | Some qs => k qs
  | None => throw "TypeError"
  end.

Definition index (request : Hapi.Request) : M Internals reply :=
  internals_queues (fun queues =>
    if (length queues =? 0)%nat then
      ret (StatsQueues ∅ [])
    else
      let query := default ∅ (Hapi.query request) in
      match queues !! 0%nat with
      | None => throw "TypeError"
      | Some first =>
          let redisClient := client first in
          redisInfoRaw <- await (Info redisClient) ;;
          redisInfo <- await (ParseRedisInfo redisInfoRaw) ;;
          let stats := collect_stats redisInfo in
          data <- promise_all (fun queue =>
                    counts <- await (GetJobCounts queue statuses) ;;
                    let status := status_filter query queue in
                    jobs <- await (GetJobs queue status 0 10) ;;
                    ret {| entry_name := name queue;
                           counts := counts;
                           jobs := formatJob <$> jobs |}) queues ;;
          ret (StatsData stats data)
      end).

Definition retryAll (request : Hapi.Request) : M Internals reply :=
  internals_queues (fun queues =>
    let queueName := prop (Hapi.params request) "queue" in
    match find_queue queues queueName with
    | None => ret (Respond notFound)
    | Some queue => ret Undefined
    end).

Definition retry (request : Hapi.Request) : M Internals reply :=
  internals_queues (fun queues =>
    let queueName := prop (Hapi.params request) "queue" in
    let jobId := prop (Hapi.params request) "job" in
    match find_queue queues queueName with
    | None => ret (Respond notFound)
    | Some queue =>
        job <- await (GetJob queue jobId) ;;
        match job with
        | None => ret (Respond notFound)
        | Some job =>
            _ <- await (JobRetry job) ;;
            ret (Respond (Hapi.code 204 (Hapi.response VUndefined)))
        end
    end).

Definition promote (request : Hapi.Request) : M Internals reply :=
  internals_queues (fun queues =>
    let queueName := prop (Hapi.params request) "queue" in
    let jobId := prop (Hapi.params request) "job" in
    match find_queue queues queueName with
    | None => ret (Respond notFound)
    | Some queue =>
        job <- await (GetJob queue jobId) ;;
        match job with
        | None => ret (Respond notFound)
        | Some job =>
            _ <- await (JobPromote job) ;;
            ret (Respond (Hapi.code 204 (Hapi.response VUndefined)))
        end
    end).

Definition clean (request : Hapi.Request) : M Internals reply :=
  internals_queues (fun queues =>
    let queueName := prop (Hapi.params request) "queue" in
    let status := prop (Hapi.params request) "status" in
    match find_queue queues queueName with
    | None => ret (Respond notFound)
    | Some queue =>
        _ <- await (Clean queue GRACE_TIME_MS status) ;;
        ret (Respond (Hapi.code 200 (Hapi.response VUndefined)))
    end).

(** [onPostStart(server)]: the routing table of the server comes in
    and goes out extended.  The controller is bound to [this], so its
    handlers read the internals as they are when a request arrives. *)
Definition onPostStart (server : list (Route Internals)) : M Internals (list (Route Internals)) :=
  internals <- this ;;
  let basePath := basePath (options internals) in
  resolved <- await GetQueues ;;
  _ <- assign (fun i => {| options := options i; queues := Some resolved |}) ;;
  ret (server ++
    [ {| Hapi.method := "GET";
         Hapi.path := template basePath +:+ "/queues";
         Hapi.handler := index;
         Hapi.options := spread (routeOptions (options internals)) |};
      {| Hapi.method := "PUT";
         Hapi.path := template basePath +:+ "/queues/{queue}/retry";
         Hapi.handler := retryAll;
         Hapi.options := spread (routeOptions (options internals)) |};
      {| Hapi.method := "PUT";
         Hapi.path := template basePath +:+ "/queues/{queue}/clean/{status}";
         Hapi.handler := clean;
         Hapi.options := spread (routeOptions (options internals)) |};
      {| Hapi.method := "PUT";
         Hapi.path := template basePath +:+ "/queues/{queue}/jobs/{job}/retry";
         Hapi.handler := retry;
         Hapi.options := spread (routeOptions (options internals)) |};
      {| Hapi.method := "PUT";
         Hapi.path := template basePath +:+ "/queues/{queue}/jobs/{job}/promote";
         Hapi.handler := promote;
         Hapi.options := spread (routeOptions (options internals)) |} ])%list.

(** [register(server, options)] creates the internals and hooks
    [onPostStart]; the host runs the hook when it has started. *)
Definition register (opts : PluginOptions) : Internals :=
  {| options := opts; queues := None |}.

(** The requests of a run, served one after the other: each names the
    route hapi matched it to by its place in the table (a request that
    matches no route never reaches the plugin).  A handler that throws
    fails its own request only. *)
Fixpoint serve (server : list (Route Internals)) (requests : list (nat * Hapi.Request))
  : Internals -> prog (list (outcome reply) * Internals) :=
  fun internals =>
    match requests with
    | [] => Ret ([], internals)
    | (i, request) :: rest =>
        match server !! i with
        | None => serve server rest internals
        | Some route =>
            pbind (Hapi.handler route request internals) (fun '(o, internals') =>
              pbind (serve server rest internals') (fun '(os, internals'') =>
                Ret (o :: os, internals'')))
        end
    end.

End Banderilla.

(** ** [lib/index.ts]: the skeleton with a static queue list *)

Module LibIndex.

Record PluginOptions : Type := {
  path : option string;
  queues : list Queue;
  routeOptions : option jsobj
}.

(** The controller holds the options themselves. *)
Record QueuesController : Type := { options : PluginOptions }.

(** The methods of the controller are handed to hapi as they are,
    without [bind].  A method is therefore a function of its receiver:
    [Some controller] when it is called on the controller, [None] when
    it is called as a plain function, which is how hapi calls the
    handler of a route that has no bind context.  Reading a property of
    a missing receiver throws. *)
Definition index (request : Hapi.Request) : M (option QueuesController) reply :=
  receiver <- this ;;
  match receiver with
  | None => throw "TypeError"
  | Some controller =>
      let queues := queues (options controller) in
      if (length queues =? 0)%nat then
        ret (StatsQueues ∅ [])
      else
        let query := default ∅ (Hapi.query request) in
        match queues !! 0%nat with
        | None => throw "TypeError"
        | Some first =>
            let redisClient := client first in
            redisInfoRaw <- await (Info redisClient) ;;
            redisInfo <- await (ParseRedisInfo redisInfoRaw) ;;
            let stats := collect_stats redisInfo in
            data <- promise_all (fun queue =>
                      counts <- unawaited (GetJobCounts queue statuses) ;;
                      let status := status_filter query queue in
                      jobs <- await (GetJobs queue status 0 10) ;;
                      ret {| entry_name := name queue;
                             counts := counts;
                             jobs := formatJob <$> jobs |}) queues ;;
            ret (StatsData stats data)
        end
  end.

Definition retryAll (request : Hapi.Request) : M (option QueuesController) reply :=
  ret Undefined.

Definition retry (request : Hapi.Request) : M (option QueuesController) reply :=
  ret Undefined.

Definition promote (request : Hapi.Request) : M (option QueuesController) reply :=
  ret Undefined.

Definition clean (request : Hapi.Request) : M (option QueuesController) reply :=
  ret Undefined.

(** [onPostStart] is bound to the internals, whose only field is the
    options; the routes it registers carry the methods of a new
    controller over these options, unbound. *)
Definition onPostStart (server : list (Route (option QueuesController)))
  : M PluginOptions (list (Route (option QueuesController))) :=
  options <- this ;;
  let basePath := path options in
  ret (server ++
    [ {| Hapi.method := "GET";
         Hapi.path := template basePath +:+ "/queues";
         Hapi.handler := index;
         Hapi.options := spread (routeOptions options) |};
      {| Hapi.method := "PUT";
         Hapi.path := template basePath +:+ "/queues/retry";
         Hapi.handler := retryAll;
         Hapi.options := spread (routeOptions options) |};
      {| Hapi.method := "PUT";
         Hapi.path := template basePath +:+ "/queues/{queue}/retry";
         Hapi.handler := retry;
         Hapi.options := spread (routeOptions options) |};
      {| Hapi.method := "PUT";
         Hapi.path := template basePath +:+ "/queues/{queue}/promote";
         Hapi.handler := promote;
         Hapi.options := spread (routeOptions options) |};
      {| Hapi.method := "PUT";
         Hapi.path := template basePath +:+ "/queues/{queue}/clean/{status}";
         Hapi.handler := clean;
         Hapi.options := spread (routeOptions options) |} ])%list.

End LibIndex.

(** ** Reading results and logs *)

(** What the handler returned, the state it left, the calls it made. *)
Definition result {S A : Type} (w : World) (m : M S A) (s : S) : outcome A :=
  fst (fst (run w (m s))).

Definition final {S A : Type} (w : World) (m : M S A) (s : S) : S :=
  snd (fst (run w (m s))).

Definition calls {S A : Type} (w : World) (m : M S A) (s : S) : list event :=
  snd (run w (m s)).

Definition is_getQueues (e : event) : bool :=
  match e with
  | Called GetQueues => true
  | Called _ => false
  end.

Definition is_retry (e : event) : bool :=
  match e with
  | Called (JobRetry _) => true
  | Called _ => false
  end.

Definition is_promote (e : event) : bool :=
  match e with
  | Called (JobPromote _) => true
  | Called _ => false
  end.

Definition is_clean (e : event) : bool :=
  match e with
  | Called (Clean _ _ _) => true
  | Called _ => false
  end.

(** How many entries of a log satisfy a test. *)
Definition count (f : event -> bool) (log : list event) : nat := length (List.filter f log).

(** More tests on log entries. *)
Definition is_info (e : event) : bool :=
  match e with
  | Called (Info _) => true
  | Called _ => false
  end.

(** The calls that only read: the store info, its parsing, job counts
    and job listings. *)
Definition reads_only (e : event) : bool :=
  match e with
  | Called (Info _) | Called (ParseRedisInfo _)
  | Called (GetJobCounts _ _) | Called (GetJobs _ _ _ _) => true
  | Called _ => false
  end.

(** The calls that change a job or a queue. *)
Definition mutates (e : event) : bool := is_retry e || is_promote e || is_clean e.

(** The arguments of a read, as a log entry shows them. *)
Definition read_arguments (query : jsobj) (e : event) : Prop :=
  let six := [ "active"; "completed"; "delayed"; "failed"; "paused"; "waiting" ] in
  match e with
  | Called (GetJobCounts _ types) => types = six
  | Called (GetJobs queue types start stop) =>
      start = 0 /\ stop = 10 /\
      (prop query (name queue) = VStr "latest" -> types = VArr (VStr <$> six)) /\
      (prop query (name queue) <> VStr "latest" -> types = prop query (name queue)) /\
      types <> VStr "latest"
  | Called _ => True
  end.

(** The queue a log entry asks for its counts, or for its jobs. *)
Definition counted_queue (e : event) : option Queue :=
  match e with
  | Called (GetJobCounts queue _) => Some queue
  | Called _ => None
  end.

Definition listed_queue (e : event) : option Queue :=
  match e with
  | Called (GetJobs queue _ _ _) => Some queue
  | Called _ => None
  end.

(** The keys of an object literal, in order. *)
Definition literal_keys (v : jsval) : list string :=
  match v with
  | VObj o => fst <$> o
  | _ => []
  end.

(** The entry the plugin builds for one queue, and the calls it takes. *)
Definition entry_of (w : World) (query : jsobj) (queue : Queue) : QueueEntry :=
  {| entry_name := name queue;
     counts := w _ (GetJobCounts queue statuses);
     jobs := formatJob <$> w _ (GetJobs queue (status_filter query queue) 0 10) |}.

Definition entry_calls (query : jsobj) (queue : Queue) : list event :=
  [ Called (GetJobCounts queue statuses);
    Called (GetJobs queue (status_filter query queue) 0 10) ].

(** In [lib/index.ts] the counts are not awaited. *)
Definition pending_counts (e : QueueEntry) : QueueEntry :=
  {| entry_name := entry_name e; counts := VPromise (counts e); jobs := jobs e |}.

(** A method is quiet when, in every world and from every state, it
    leaves the state as it found it and does not call the factory. *)
Definition quiet {S A : Type} (m : M S A) : Prop :=
  forall (w : World) (s : S),
    final w m s = s /\ count is_getQueues (calls w m s) = 0%nat.

Create HintDb quiet.

(** ** A concrete world, for examples *)

Module Demo.

Definition redis : Client := {| client_ref := 0 |}.

Definition mail : Queue := {| queue_ref := 1; name := "mail"; client := redis |}.
Definition video : Queue := {| queue_ref := 2; name := "video"; client := redis |}.

Definition job7 : Job :=
  {| job_ref := 7;
     toJSON := {[ "id" := VStr "7"; "name" := VStr "send"; "attemptsMade" := VNum 2 ]};
     opts := {[ "delay" := VNum 0 ]} |}.

(** A store that reports an empty [total_system_memory]. *)
Definition info : jsobj :=
  {[ "redis_version" := VStr "5.0.7";
     "used_memory" := VStr "1048576";
     "connected_clients" := VStr "3";
     "blocked_clients" := VStr "";
     "total_system_memory" := VStr "";
     "maxmemory" := VStr "4096" ]}.

Definition world : World :=
  fun X c =>
    match c in call X return X with
    | GetQueues => [mail; video]
    | Info _ => "# Server"
    | ParseRedisInfo _ => info
    | GetJobCounts _ _ => VObj [("active", VNum 1); ("waiting", VNum 4)]
    | GetJobs q _ _ _ => if String.eqb (name q) "mail" then [job7] else []
    | GetJob q jobId => if strict_eq_str jobId "7" then Some job7 else None
    | JobRetry _ => VUndefined
    | JobPromote _ => VUndefined
    | Clean _ _ _ => VArr [VStr "7"]
    end.

Definition started : Banderilla.Internals :=
  {| Banderilla.options :=
       {| Banderilla.basePath := Some "/admin"; Banderilla.routeOptions := None |};
     Banderilla.queues := Some [mail; video] |}.

Definition idle : Banderilla.Internals :=
  {| Banderilla.options :=
       {| Banderilla.basePath := Some "/admin"; Banderilla.routeOptions := None |};
     Banderilla.queues := Some [] |}.

(** The same set-up for [lib/index.ts]. *)
Definition static : LibIndex.PluginOptions :=
  {| LibIndex.path := Some "/admin";
     LibIndex.queues := [mail; video];
     LibIndex.routeOptions := None |}.

Definition request (queue job status : string) : Hapi.Request :=
  {| Hapi.query := Some {[ "mail" := VStr "latest"; "video" := VStr "failed" ]};
     Hapi.params := {[ "queue" := VStr queue; "job" := VStr job; "status" := VStr status ]} |}.

(** A second queue that calls itself [mail], behind the first. *)
Definition shadowed : Queue := {| queue_ref := 3; name := "mail"; client := redis |}.

Definition crowded : Banderilla.Internals :=
  {| Banderilla.options :=
       {| Banderilla.basePath := None; Banderilla.routeOptions := None |};
     Banderilla.queues := Some [video; mail; shadowed] |}.

(** A request that carries no path parameters. *)
Definition bare : Hapi.Request := {| Hapi.query := None; Hapi.params := ∅ |}.

(** A job whose JSON form has fields the dashboard does not show. *)
Definition job7_verbose : Job :=
  {| job_ref := 7;
     toJSON := {[ "id" := VStr "7"; "name" := VStr "send"; "attemptsMade" := VNum 2;
                  "returnvalue" := VStr "secret"; "delay" := VNum 900 ]};
     opts := {[ "delay" := VNum 0; "priority" := VNum 1 ]} |}.

End Demo.

(** ** Running programs *)

Lemma run_pbind {A B : Type} (w : World) (p : prog A) (f : A -> prog B) :
  run w (pbind p f) =
  let '(a, l1) := run w p in
  let '(b, l2) := run w (f a) in
  (b, (l1 ++ l2)%list).
Proof.
  induction p as [a | X c k IH]; simpl.
  - destruct (run w (f a)); reflexivity.
  - rewrite IH. destruct (run w (k (w X c))) as [a l1].
    destruct (run w (f a)); reflexivity.
Qed.

Lemma run_bind {S A B : Type} (w : World) (m : M S A) (f : A -> M S B) (s : S) :
  run w (bind m f s) =
  match run w (m s) with
  | (Returned a, s', l1) => let '(r, l2) := run w (f a s') in (r, (l1 ++ l2)%list)
  | (Thrown e, s', l1) => (Thrown e, s', l1)
  end.
Proof.
  unfold bind. rewrite run_pbind.
  destruct (run w (m s)) as [[[a | e] s'] l1]; simpl.
  - reflexivity.
  - rewrite app_nil_r. reflexivity.
Qed.

Lemma run_bind_await {S X B : Type} (w : World) (c : call X) (f : X -> M S B) (s : S) :
  run w (bind (await c) f s) =
  let '(r, l) := run w (f (w _ c) s) in (r, Called c :: l).
Proof. reflexivity. Qed.

Lemma run_bind_unawaited {S B : Type} (w : World) (c : call jsval) (f : jsval -> M S B) (s : S) :
  run w (bind (unawaited c) f s) =
  let '(r, l) := run w (f (VPromise (w _ c)) s) in (r, Called c :: l).
Proof. reflexivity. Qed.

Lemma run_bind_this {S B : Type} (w : World) (f : S -> M S B) (s : S) :
  run w (bind this f s) = run w (f s s).
Proof. reflexivity. Qed.

Lemma run_bind_assign {S B : Type} (w : World) (g : S -> S) (f : unit -> M S B) (s : S) :
  run w (bind (assign g) f s) = run w (f tt (g s)).
Proof. reflexivity. Qed.

Lemma run_ret {S A : Type} (w : World) (a : A) (s : S) :
  run w (ret a s) = (Returned a, s, []).
Proof. reflexivity. Qed.

Lemma run_throw {S A : Type} (w : World) (e : string) (s : S) :
  run w (@throw S A e s) = (Thrown e, s, []).
Proof. reflexivity. Qed.

Lemma count_app (f : event -> bool) (l1 l2 : list event) :
  count f (l1 ++ l2) = (count f l1 + count f l2)%nat.
Proof. unfold count. rewrite List.filter_app, length_app. reflexivity. Qed.

(** ** Strict equality and the queue lookup *)

Lemma strict_eq_str_true (v : jsval) (lit : string) :
  strict_eq_str v lit = true <-> v = VStr lit.
Proof.
  destruct v; simpl; try (split; [discriminate | congruence]).
  rewrite String.eqb_eq. split; congruence.
Qed.

Lemma strict_eq_str_false (v : jsval) (lit : string) :
  strict_eq_str v lit = false <-> v <> VStr lit.
Proof.
  rewrite <- strict_eq_str_true. destruct (strict_eq_str v lit); split; congruence.
Qed.

(** The lookup finds nothing exactly when no queue of the list has the
    name. *)
Lemma find_queue_None (qs : list Queue) (queueName : jsval) :
  find_queue qs queueName = None <-> forall q, q ∈ qs -> queueName <> VStr (name q).
Proof.
  unfold find_queue. induction qs as [| q0 rest IH]; simpl.
  - split; [intros _ q Hq; inversion Hq | reflexivity].
  - destruct (strict_eq_str queueName (name q0)) eqn:E.
    + apply strict_eq_str_true in E. split; [discriminate |].
      intros H. exfalso. apply (H q0); [left | exact E].
    + apply strict_eq_str_false in E. rewrite IH. split.
      * intros H q Hq. apply elem_of_cons in Hq as [-> | Hq]; [exact E | apply H, Hq].
      * intros H q Hq. apply H. right. exact Hq.
Qed.

(** The lookup yields the first queue of the list that has the name. *)
Lemma find_queue_Some (qs : list Queue) (queueName : jsval) (q : Queue) :
  find_queue qs queueName = Some q <->
  exists before after,
    qs = (before ++ q :: after)%list /\
    queueName = VStr (name q) /\
    forall p, p ∈ before -> queueName <> VStr (name p).
Proof.
  unfold find_queue. revert q. induction qs as [| q0 rest IH]; intros q; simpl.
  - split; [discriminate |]. intros (before & after & H & _). destruct before; discriminate.
  - destruct (strict_eq_str queueName (name q0)) eqn:E.
    + apply strict_eq_str_true in E. split.
      * intros [= <-]. exists [], rest. split; [reflexivity |]. split; [exact E |].
        intros p Hp. inversion Hp.
      * intros (before & after & Hqs & Hn & Hb). destruct before as [| b before].
        -- simpl in Hqs. congruence.
        -- simpl in Hqs. injection Hqs as <- _. exfalso. apply (Hb q0); [left | exact E].
    + apply strict_eq_str_false in E. rewrite IH. split.
      * intros (before & after & -> & Hn & Hb). exists (q0 :: before), after.
        split; [reflexivity |]. split; [exact Hn |].
        intros p Hp. apply elem_of_cons in Hp as [-> | Hp]; [exact E | apply Hb, Hp].
      * intros (before & after & Hqs & Hn & Hb). destruct before as [| b before].
        -- simpl in Hqs. injection Hqs as -> _. contradiction.
        -- simpl in Hqs. injection Hqs as <- ->. exists before, after.
           split; [reflexivity |]. split; [exact Hn |].
           intros p Hp. apply Hb. right. exact Hp.
Qed.

(** ** The handlers that change jobs and queues *)

Section Mutations.

Import Banderilla.

Variable w : World.
Variable internals : Internals.
Variable qs : list Queue.
Variable request : Hapi.Request.
Hypothesis started : queues internals = Some qs.

Let queueName : jsval := prop (Hapi.params request) "queue".
Let jobId : jsval := prop (Hapi.params request) "job".
Let status : jsval := prop (Hapi.params request) "status".

(** Unfold a handler down to its first case distinction. *)
Ltac enter :=
  unfold retryAll, retry, promote, clean, internals_queues, bind, this, await, ret;
  simpl; rewrite started; simpl.

Lemma run_retryAll :
  run w (retryAll request internals) =
  match find_queue qs queueName with
  | None => (Returned (Respond notFound), internals, [])
  | Some _ => (Returned Undefined, internals, [])
  end.
Proof.
  enter. fold queueName. destruct (find_queue qs queueName); reflexivity.
Qed.

Lemma run_retry :
  run w (retry request internals) =
  match find_queue qs queueName with
  | None => (Returned (Respond notFound), internals, [])
  | Some queue =>
      match w _ (GetJob queue jobId) with
      | None => (Returned (Respond notFound), internals, [Called (GetJob queue jobId)])
      | Some job =>
          (Returned (Respond (Hapi.code 204 (Hapi.response VUndefined))), internals,
           [Called (GetJob queue jobId); Called (JobRetry job)])
      end
  end.
Proof.
  enter. fold queueName jobId.
  destruct (find_queue qs queueName) as [queue |]; simpl; [| reflexivity].
  destruct (w _ (GetJob queue jobId)); reflexivity.
Qed.

Lemma run_promote :
  run w (promote request internals) =
  match find_queue qs queueName with
  | None => (Returned (Respond notFound), internals, [])
  | Some queue =>
      match w _ (GetJob queue jobId) with
      | None => (Returned (Respond notFound), internals, [Called (GetJob queue jobId)])
      | Some job =>
          (Returned (Respond (Hapi.code 204 (Hapi.response VUndefined))), internals,
           [Called (GetJob queue jobId); Called (JobPromote job)])
      end
  end.
Proof.
  enter. fold queueName jobId.
  destruct (find_queue qs queueName) as [queue |]; simpl; [| reflexivity].
  destruct (w _ (GetJob queue jobId)); reflexivity.
Qed.

Lemma run_clean :
  run w (clean request internals) =
  match find_queue qs queueName with
  | None => (Returned (Respond notFound), internals, [])
  | Some queue =>
      (Returned (Respond (Hapi.code 200 (Hapi.response VUndefined))), internals,
       [Called (Clean queue GRACE_TIME_MS status)])
  end.
Proof.
  enter. fold queueName status.
  destruct (find_queue qs queueName) as [queue |]; reflexivity.
Qed.

End Mutations.

(** ** Claims about the handlers that change jobs and queues *)

(** C3: the retry and the promote handler answer 404 with the body
    [{statusCode: 404, error: "Not Found", message: "Not Found"}] when
    no queue of the list has the requested name, and also when the queue
    is found but its job lookup yields nothing; in both cases the log of
    calls holds no retry and no promote of any job. *)
Theorem retry_promote_not_found
    (w : World) (internals : Banderilla.Internals) (qs : list Queue)
    (request : Hapi.Request) :
  let queueName := prop (Hapi.params request) "queue" in
  let jobId := prop (Hapi.params request) "job" in
  let answer404 :=
    Returned (Respond
      {| Hapi.source := VObj [ ("statusCode", VNum 404);
                               ("error", VStr "Not Found");
                               ("message", VStr "Not Found") ];
         Hapi.statusCode := 404 |}) in
  let untouched (log : list event) :=
    Forall (fun e => is_retry e = false /\ is_promote e = false) log in
  Banderilla.queues internals = Some qs ->
  (forall q, q ∈ qs -> queueName <> VStr (name q)) \/
  (exists q, find_queue qs queueName = Some q /\ w _ (GetJob q jobId) = None) ->
  result w (Banderilla.retry request) internals = answer404 /\
  untouched (calls w (Banderilla.retry request) internals) /\
  result w (Banderilla.promote request) internals = answer404 /\
  untouched (calls w (Banderilla.promote request) internals).
Proof.
  intros queueName jobId answer404 untouched Hqs Hmiss.
  unfold result, calls.
  rewrite (run_retry w internals qs request Hqs), (run_promote w internals qs request Hqs).
  fold queueName jobId.
  destruct Hmiss as [Hnone | (q & Hfind & Hjob)].
  - apply find_queue_None in Hnone. rewrite Hnone. simpl.
    repeat split; constructor.
  - rewrite Hfind, Hjob. simpl.
    repeat split; repeat constructor.
Qed.

Lemma retry_promote_not_found_witness :
  result Demo.world (Banderilla.retry (Demo.request "mail" "8" "")) Demo.started =
    Returned (Respond Banderilla.notFound) /\
  result Demo.world (Banderilla.promote (Demo.request "mail" "8" "")) Demo.started =
    Returned (Respond Banderilla.notFound).
Proof.
  destruct (retry_promote_not_found Demo.world Demo.started [Demo.mail; Demo.video]
              (Demo.request "mail" "8" "")) as (Hr & _ & Hp & _).
  - reflexivity.
  - right. exists Demo.mail. split; reflexivity.
  - split; [exact Hr | exact Hp].
Defined.



(** C5: when the list holds a queue with the requested name, the clean
    handler issues exactly one clean on that queue, with the grace period
    5000 and the status path parameter as it came, and answers 200
    whatever the clean resolved to; when no queue has the name it answers
    with the 404 body and issues no clean. *)
Theorem clean_grace_period_and_status
    (w : World) (internals : Banderilla.Internals) (qs : list Queue)
    (request : Hapi.Request) :
  let queueName := prop (Hapi.params request) "queue" in
  let status := prop (Hapi.params request) "status" in
  Banderilla.queues internals = Some qs ->
  (forall queue, find_queue qs queueName = Some queue ->
     result w (Banderilla.clean request) internals =
       Returned (Respond {| Hapi.source := VUndefined; Hapi.statusCode := 200 |}) /\
     calls w (Banderilla.clean request) internals = [Called (Clean queue 5000 status)] /\
     count is_clean (calls w (Banderilla.clean request) internals) = 1%nat) /\
  ((forall q, q ∈ qs -> queueName <> VStr (name q)) ->
     result w (Banderilla.clean request) internals =
       Returned (Respond
         {| Hapi.source := VObj [ ("statusCode", VNum 404);
                                  ("error", VStr "Not Found");
                                  ("message", VStr "Not Found") ];
            Hapi.statusCode := 404 |}) /\
     calls w (Banderilla.clean request) internals = []).
Proof.
  intros queueName status Hqs.
  unfold result, calls. rewrite (run_clean w internals qs request Hqs).
  fold queueName status. split.
  - intros queue Hfind. rewrite Hfind. simpl. repeat split; reflexivity.
  - intros Hnone. apply find_queue_None in Hnone. rewrite Hnone. simpl.
    split; reflexivity.
Qed.

Lemma clean_grace_period_and_status_witness :
  calls Demo.world (Banderilla.clean (Demo.request "video" "" "failed")) Demo.started =
    [Called (Clean Demo.video 5000 (VStr "failed"))].
Proof.
  destruct (clean_grace_period_and_status Demo.world Demo.started [Demo.mail; Demo.video]
              (Demo.request "video" "" "failed")) as (Hfound & _).
  - reflexivity.
  - destruct (Hfound Demo.video) as (_ & Hcalls & _); [reflexivity | exact Hcalls].
Defined.

(** C8: the retryAll handler answers 404 with the not-found body when no
    queue of the list has the requested name; for a queue that is found
    it calls nothing at all, on the queue or elsewhere, and returns
    without a response. *)
Theorem retryAll_looks_up_only
    (w : World) (internals : Banderilla.Internals) (qs : list Queue)
    (request : Hapi.Request) :
  let queueName := prop (Hapi.params request) "queue" in
  Banderilla.queues internals = Some qs ->
  ((forall q, q ∈ qs -> queueName <> VStr (name q)) ->
     result w (Banderilla.retryAll request) internals =
       Returned (Respond
         {| Hapi.source := VObj [ ("statusCode", VNum 404);
                                  ("error", VStr "Not Found");
                                  ("message", VStr "Not Found") ];
            Hapi.statusCode := 404 |})) /\
  (forall queue, find_queue qs queueName = Some queue ->
     result w (Banderilla.retryAll request) internals = Returned Undefined) /\
  calls w (Banderilla.retryAll request) internals = [].
Proof.
  intros queueName Hqs.
  unfold result, calls. rewrite (run_retryAll w internals qs request Hqs).
  fold queueName. repeat split.
  - intros Hnone. apply find_queue_None in Hnone. rewrite Hnone. reflexivity.
  - intros queue Hfind. rewrite Hfind. reflexivity.
  - destruct (find_queue qs queueName); reflexivity.
Qed.

Lemma retryAll_looks_up_only_witness :
  result Demo.world (Banderilla.retryAll (Demo.request "video" "" "")) Demo.started =
    Returned Undefined /\
  calls Demo.world (Banderilla.retryAll (Demo.request "video" "" "")) Demo.started = [].
Proof.
  destruct (retryAll_looks_up_only Demo.world Demo.started [Demo.mail; Demo.video]
              (Demo.request "video" "" "")) as (_ & Hfound & Hcalls).
  - reflexivity.
  - split; [apply (Hfound Demo.video); reflexivity | exact Hcalls].
Defined.

(** ** The index handler *)

(** Callbacks that return, leave the state alone and issue calls that
    depend on their argument only: [Promise.all] collects their values in
    the order of the list. *)
Lemma run_promise_all {S A B : Type} (w : World) (body : A -> M S B)
    (f : A -> B) (g : A -> list event) (xs : list A) (s : S) :
  (forall x s', run w (body x s') = (Returned (f x), s', g x)) ->
  run w (promise_all body xs s) = (Returned (f <$> xs), s, mjoin (g <$> xs)).
Proof.
  intros Hbody. induction xs as [| x rest IH]; cbn [promise_all].
  - reflexivity.
  - rewrite run_bind, Hbody, run_bind, IH. simpl.
    rewrite app_nil_r. reflexivity.
Qed.

Section Index.

Variable w : World.
Variable request : Hapi.Request.

Let query : jsobj := default ∅ (Hapi.query request).

Lemma run_index_empty (internals : Banderilla.Internals) :
  Banderilla.queues internals = Some [] ->
  run w (Banderilla.index request internals) = (Returned (StatsQueues ∅ []), internals, []).
Proof.
  intros Hqs. unfold Banderilla.index, Banderilla.internals_queues.
  rewrite run_bind_this, Hqs. reflexivity.
Qed.

Lemma run_index (internals : Banderilla.Internals) (first : Queue) (rest : list Queue) :
  Banderilla.queues internals = Some (first :: rest) ->
  let raw := w _ (Info (client first)) in
  let redisInfo := w _ (ParseRedisInfo raw) in
  run w (Banderilla.index request internals) =
  (Returned (StatsData (collect_stats redisInfo) (entry_of w query <$> first :: rest)),
   internals,
   Called (Info (client first)) :: Called (ParseRedisInfo raw) ::
     mjoin (entry_calls query <$> first :: rest)).
Proof.
  intros Hqs raw redisInfo.
  unfold Banderilla.index, Banderilla.internals_queues.
  rewrite run_bind_this, Hqs. cbn [length Nat.eqb lookup list_lookup].
  rewrite !run_bind_await, run_bind.
  erewrite (run_promise_all w _ (entry_of w query) (entry_calls query)).
  - rewrite run_ret. simpl. rewrite app_nil_r. reflexivity.
  - intros queue s'. reflexivity.
Qed.

Lemma run_lib_index_unbound :
  run w (LibIndex.index request None) = (Thrown "TypeError", None, []).
Proof. reflexivity. Qed.

Lemma run_lib_index_empty (controller : LibIndex.QueuesController) :
  LibIndex.queues (LibIndex.options controller) = [] ->
  run w (LibIndex.index request (Some controller)) =
  (Returned (StatsQueues ∅ []), Some controller, []).
Proof.
  intros Hqs. unfold LibIndex.index. rewrite run_bind_this, Hqs. reflexivity.
Qed.

Lemma run_lib_index (controller : LibIndex.QueuesController)
    (first : Queue) (rest : list Queue) :
  LibIndex.queues (LibIndex.options controller) = first :: rest ->
  let raw := w _ (Info (client first)) in
  let redisInfo := w _ (ParseRedisInfo raw) in
  run w (LibIndex.index request (Some controller)) =
  (Returned (StatsData (collect_stats redisInfo)
               (pending_counts <$> (entry_of w query <$> first :: rest))),
   Some controller,
   Called (Info (client first)) :: Called (ParseRedisInfo raw) ::
     mjoin (entry_calls query <$> first :: rest)).
Proof.
  intros Hqs raw redisInfo.
  unfold LibIndex.index.
  rewrite run_bind_this, Hqs. cbn [length Nat.eqb lookup list_lookup].
  rewrite !run_bind_await, run_bind.
  erewrite (run_promise_all w _ (fun q => pending_counts (entry_of w query q))
              (entry_calls query)).
  - rewrite run_ret. simpl. rewrite app_nil_r, <- list_fmap_compose. reflexivity.
  - intros queue s'. reflexivity.
Qed.

End Index.

(** ** The store statistics *)

(** What the [reduce] over a list of metric names leaves in the
    accumulator: a name of the list whose info value is truthy is set to
    that value, every other key is as it was. *)
Lemma reduce_lookup (redisInfo acc : jsobj) (names : list string) (k : string) :
  foldl (fun acc metric =>
           if truthy (prop redisInfo metric)
           then <[ metric := prop redisInfo metric ]> acc
           else acc) acc names !! k =
  if decide (k ∈ names /\ truthy (prop redisInfo k) = true)
  then Some (prop redisInfo k)
  else acc !! k.
Proof.
  revert acc. induction names as [| m rest IH]; intros acc; cbn [foldl].
  - rewrite decide_False; [reflexivity |]. intros [H _]. inversion H.
  - rewrite IH.
    destruct (decide (k ∈ rest /\ truthy (prop redisInfo k) = true)) as [[Hin Ht] | Hrest].
    + rewrite decide_True; [reflexivity |]. split; [right; exact Hin | exact Ht].
    + destruct (decide (k ∈ m :: rest /\ truthy (prop redisInfo k) = true))
        as [[Hin Ht] | Hall].
      * apply elem_of_cons in Hin as [-> | Hin]; [| exfalso; apply Hrest; split; assumption].
        rewrite Ht. apply lookup_insert_eq.
      * destruct (truthy (prop redisInfo m)) eqn:Em; [| reflexivity].
        apply lookup_insert_ne. intros ->. apply Hall. split; [left | exact Em].
Qed.

Lemma collect_stats_total (redisInfo : jsobj) :
  collect_stats redisInfo !! "total_system_memory" =
  Some (js_or (prop redisInfo "total_system_memory") (prop redisInfo "maxmemory")).
Proof. unfold collect_stats. apply lookup_insert_eq. Qed.

Lemma collect_stats_metric (redisInfo : jsobj) (k : string) :
  k <> "total_system_memory" ->
  collect_stats redisInfo !! k =
  if decide (k ∈ metrics /\ truthy (prop redisInfo k) = true)
  then Some (prop redisInfo k)
  else None.
Proof.
  intros Hk. unfold collect_stats.
  rewrite lookup_insert_ne by congruence.
  rewrite reduce_lookup.
  destruct (decide (k ∈ metrics /\ truthy (prop redisInfo k) = true));
    [reflexivity | apply lookup_empty].
Qed.

Lemma total_not_a_metric : "total_system_memory" ∉ metrics.
Proof.
  unfold metrics. rewrite !not_elem_of_cons. repeat split; try discriminate.
  apply not_elem_of_nil.
Qed.

Lemma collect_stats_keys (redisInfo : jsobj) (k : string) :
  k ∈ dom (collect_stats redisInfo) <->
  (k ∈ metrics /\ truthy (prop redisInfo k) = true) \/ k = "total_system_memory".
Proof.
  rewrite elem_of_dom. destruct (decide (k = "total_system_memory")) as [-> | Hk].
  - rewrite collect_stats_total. split; [right; reflexivity | eauto].
  - rewrite collect_stats_metric by exact Hk.
    destruct (decide (k ∈ metrics /\ truthy (prop redisInfo k) = true)) as [H | H].
    + split; [left; exact H | eauto].
    + split.
      * intros [v Hv]. discriminate.
      * intros [H' | H']; contradiction.
Qed.

(** ** Claims about the index handler *)

(** C6: for the empty queue list the index handler returns exactly
    [{stats: {}, queues: []}] and calls nothing: no store info, no job
    counts, no job listing. *)
Theorem index_empty_queue_list
    (w : World) (request : Hapi.Request) (internals : Banderilla.Internals) :
  Banderilla.queues internals = Some [] ->
  result w (Banderilla.index request) internals = Returned (StatsQueues ∅ []) /\
  calls w (Banderilla.index request) internals = [].
Proof.
  intros Hqs. unfold result, calls.
  rewrite (run_index_empty w request internals Hqs).
  split; reflexivity.
Qed.

Lemma index_empty_queue_list_witness :
  result Demo.world (Banderilla.index (Demo.request "" "" "")) Demo.idle =
    Returned (StatsQueues ∅ []) /\
  calls Demo.world (Banderilla.index (Demo.request "" "" "")) Demo.idle = [].
Proof.
  apply (index_empty_queue_list Demo.world (Demo.request "" "" "") Demo.idle).
  reflexivity.
Defined.

(** C1, as the code has it: for a non-empty queue list the index handler
    returns a [stats] object whose keys are exactly the allow-listed
    names whose value in the parsed store info is truthy, each with that
    value, plus the key [total_system_memory]; the value of that key is
    the info's [total_system_memory] entry when that entry is truthy and
    the info's [maxmemory] entry otherwise, that is when the total is
    absent or falsy, such as the empty string. *)
Theorem index_stats
    (w : World) (request : Hapi.Request) (internals : Banderilla.Internals)
    (first : Queue) (rest : list Queue) :
  let redisInfo := w _ (ParseRedisInfo (w _ (Info (client first)))) in
  let allowed :=
    [ "redis_version"; "used_memory"; "mem_fragmentation_ratio";
      "connected_clients"; "blocked_clients" ] in
  Banderilla.queues internals = Some (first :: rest) ->
  exists stats data,
    result w (Banderilla.index request) internals = Returned (StatsData stats data) /\
    (forall k, k ∈ dom stats <->
       (k ∈ allowed /\ truthy (prop redisInfo k) = true) \/ k = "total_system_memory") /\
    (forall k, k ∈ allowed -> truthy (prop redisInfo k) = true ->
       stats !! k = redisInfo !! k) /\
    stats !! "total_system_memory" =
      Some (if truthy (prop redisInfo "total_system_memory")
            then prop redisInfo "total_system_memory"
            else prop redisInfo "maxmemory").
Proof.
  intros redisInfo allowed Hqs.
  exists (collect_stats redisInfo),
         (entry_of w (default ∅ (Hapi.query request)) <$> first :: rest).
  unfold result. rewrite (run_index w request internals first rest Hqs).
  split; [reflexivity |]. split; [| split].
  - intros k. apply collect_stats_keys.
  - intros k Hk Ht.
    assert (k <> "total_system_memory") as Hne
      by (intros ->; apply total_not_a_metric; exact Hk).
    rewrite collect_stats_metric by exact Hne.
    rewrite decide_True by (split; assumption).
    unfold prop in *. destruct (redisInfo !! k); [reflexivity | discriminate].
  - apply collect_stats_total.
Qed.

Lemma index_stats_witness :
  exists stats data,
    result Demo.world (Banderilla.index (Demo.request "" "" "")) Demo.started =
      Returned (StatsData stats data) /\
    stats !! "total_system_memory" = Some (VStr "4096").
Proof.
  destruct (index_stats Demo.world (Demo.request "" "" "") Demo.started Demo.mail [Demo.video])
    as (stats & data & Hr & _ & _ & Ht).
  - reflexivity.
  - exists stats, data. split; [exact Hr | exact Ht].
Defined.

(** C1, as the claim words it, fails: the store info below has a
    [total_system_memory] entry, the empty string, and yet the stats
    carry the [maxmemory] entry under that key. *)
Lemma index_stats_present_total_counterexample :
  let redisInfo := Demo.world _ (ParseRedisInfo (Demo.world _ (Info Demo.redis))) in
  redisInfo !! "total_system_memory" = Some (VStr "") /\
  ~ (forall stats data,
       result Demo.world (Banderilla.index (Demo.request "" "" "")) Demo.started =
         Returned (StatsData stats data) ->
       stats !! "total_system_memory" =
         Some (match redisInfo !! "total_system_memory" with
               | Some total => total
               | None => prop redisInfo "maxmemory"
               end)).
Proof.
  split; [reflexivity |].
  intros H.
  specialize (H _ _ eq_refl).
  vm_compute in H. discriminate H.
Qed.



(** ** Start-up *)

Lemma run_onPostStart (w : World) (server : list (Route Banderilla.Internals))
    (internals : Banderilla.Internals) :
  exists routes,
    run w (Banderilla.onPostStart server internals) =
      (Returned (server ++ routes)%list,
       {| Banderilla.options := Banderilla.options internals;
          Banderilla.queues := Some (w _ GetQueues) |},
       [Called GetQueues]) /\
    Hapi.method <$> routes = ["GET"; "PUT"; "PUT"; "PUT"; "PUT"] /\
    Hapi.path <$> routes =
      (fun tail => template (Banderilla.basePath (Banderilla.options internals)) +:+ tail) <$>
        [ "/queues";
          "/queues/{queue}/retry";
          "/queues/{queue}/clean/{status}";
          "/queues/{queue}/jobs/{job}/retry";
          "/queues/{queue}/jobs/{job}/promote" ] /\
    Hapi.handler <$> routes =
      [ Banderilla.index; Banderilla.retryAll; Banderilla.clean;
        Banderilla.retry; Banderilla.promote ] /\
    Forall (fun route =>
              Hapi.options route =
              spread (Banderilla.routeOptions (Banderilla.options internals))) routes.
Proof.
  unfold Banderilla.onPostStart.
  rewrite run_bind_this, run_bind_await, run_bind_assign, run_ret.
  eexists. split; [reflexivity |].
  repeat split; repeat constructor.
Qed.

(** C7: on start-up the plugin adds exactly five routes to the server:
    GET [{basePath}/queues] bound to index, PUT
    [{basePath}/queues/{queue}/retry] bound to retryAll, PUT
    [{basePath}/queues/{queue}/clean/{status}] bound to clean, PUT
    [{basePath}/queues/{queue}/jobs/{job}/retry] bound to retry and PUT
    [{basePath}/queues/{queue}/jobs/{job}/promote] bound to promote. *)
Theorem onPostStart_registers_five_routes
    (w : World) (server : list (Route Banderilla.Internals))
    (routeOptions : option jsobj) (base : string) :
  let internals :=
    Banderilla.register
      {| Banderilla.basePath := Some base; Banderilla.routeOptions := routeOptions |} in
  exists routes,
    result w (Banderilla.onPostStart server) internals = Returned (server ++ routes)%list /\
    length routes = 5%nat /\
    (fun route => (Hapi.method route, Hapi.path route)) <$> routes =
      [ ("GET", base +:+ "/queues");
        ("PUT", base +:+ "/queues/{queue}/retry");
        ("PUT", base +:+ "/queues/{queue}/clean/{status}");
        ("PUT", base +:+ "/queues/{queue}/jobs/{job}/retry");
        ("PUT", base +:+ "/queues/{queue}/jobs/{job}/promote") ] /\
    Hapi.handler <$> routes =
      [ Banderilla.index; Banderilla.retryAll; Banderilla.clean;
        Banderilla.retry; Banderilla.promote ].
Proof.
  intros internals. unfold result, Banderilla.onPostStart.
  rewrite run_bind_this, run_bind_await, run_bind_assign, run_ret.
  eexists. split; [reflexivity |].
  repeat split; reflexivity.
Qed.

(** ** Handlers leave the internals alone *)

Lemma quiet_ret {S A : Type} (a : A) : quiet (@ret S A a).
Proof. intros w s. split; reflexivity. Qed.

Lemma quiet_throw {S A : Type} (e : string) : quiet (@throw S A e).
Proof. intros w s. split; reflexivity. Qed.

Lemma quiet_this {S : Type} : quiet (@this S).
Proof. intros w s. split; reflexivity. Qed.

Lemma quiet_await {S X : Type} (c : call X) :
  is_getQueues (Called c) = false -> quiet (@await S X c).
Proof.
  intros Hc w s. split; [reflexivity |].
  unfold calls, count, await. cbn [run snd List.filter]. rewrite Hc. reflexivity.
Qed.

Lemma quiet_unawaited {S : Type} (c : call jsval) :
  is_getQueues (Called c) = false -> quiet (@unawaited S c).
Proof.
  intros Hc w s. split; [reflexivity |].
  unfold calls, count, unawaited. cbn [run snd List.filter]. rewrite Hc. reflexivity.
Qed.

Lemma quiet_bind {S A B : Type} (m : M S A) (f : A -> M S B) :
  quiet m -> (forall a, quiet (f a)) -> quiet (bind m f).
Proof.
  intros Hm Hf w s. specialize (Hm w s). unfold final, calls in *.
  rewrite run_bind. destruct (run w (m s)) as [[[a | e] s'] l1]; simpl in Hm.
  - destruct Hm as [-> Hl1]. specialize (Hf a w s). unfold final, calls in Hf.
    destruct (run w (f a s)) as [[r s''] l2]. simpl in *.
    destruct Hf as [-> Hl2]. split; [reflexivity |].
    rewrite count_app, Hl1, Hl2. reflexivity.
  - exact Hm.
Qed.

Lemma quiet_promise_all {S A B : Type} (body : A -> M S B) (xs : list A) :
  (forall x, quiet (body x)) -> quiet (promise_all body xs).
Proof.
  intros Hbody. induction xs as [| x rest IH]; cbn [promise_all].
  - apply quiet_ret.
  - apply quiet_bind; [apply Hbody |]. intros y.
    apply quiet_bind; [exact IH |]. intros ys. apply quiet_ret.
Qed.

#[local] Hint Resolve quiet_ret quiet_throw quiet_this : quiet.

(** Quietness follows the shape of the method. *)
Ltac quiet_steps :=
  repeat first
    [ solve [auto with quiet]
    | apply quiet_await; reflexivity
    | apply quiet_unawaited; reflexivity
    | apply quiet_bind; [| intros ?]
    | apply quiet_promise_all; intros ?
    | match goal with
      | |- quiet (match ?x with _ => _ end) => destruct x
      | |- quiet (if ?b then _ else _) => destruct b
      end
    | progress cbv zeta ].

Lemma quiet_internals_queues {A : Type} (k : list Queue -> M Banderilla.Internals A) :
  (forall qs, quiet (k qs)) -> quiet (Banderilla.internals_queues k).
Proof. intros Hk. unfold Banderilla.internals_queues. quiet_steps. Qed.

Lemma quiet_index (request : Hapi.Request) : quiet (Banderilla.index request).
Proof. apply quiet_internals_queues. intros qs. quiet_steps. Qed.

Lemma quiet_retryAll (request : Hapi.Request) : quiet (Banderilla.retryAll request).
Proof. apply quiet_internals_queues. intros qs. quiet_steps. Qed.

Lemma quiet_retry (request : Hapi.Request) : quiet (Banderilla.retry request).
Proof. apply quiet_internals_queues. intros qs. quiet_steps. Qed.

Lemma quiet_promote (request : Hapi.Request) : quiet (Banderilla.promote request).
Proof. apply quiet_internals_queues. intros qs. quiet_steps. Qed.

Lemma quiet_clean (request : Hapi.Request) : quiet (Banderilla.clean request).
Proof. apply quiet_internals_queues. intros qs. quiet_steps. Qed.

Lemma quiet_run {S A : Type} (m : M S A) (w : World) (s : S) :
  quiet m ->
  exists (o : outcome A) (log : list event),
    run w (m s) = (o, s, log) /\ count is_getQueues log = 0%nat.
Proof.
  intros Hm. destruct (Hm w s) as [Hfinal Hcalls]. unfold final, calls in *.
  destruct (run w (m s)) as [[o s'] log]. simpl in *. subst s'.
  exists o, log. split; [reflexivity | exact Hcalls].
Qed.

(** Serving any run of requests over quiet handlers leaves the internals
    as they were and never calls the factory. *)
Lemma serve_quiet (w : World) (server : list (Route Banderilla.Internals))
    (requests : list (nat * Hapi.Request)) (internals : Banderilla.Internals) :
  Forall (fun route => forall request, quiet (Hapi.handler route request)) server ->
  snd (fst (run w (Banderilla.serve server requests internals))) = internals /\
  count is_getQueues (snd (run w (Banderilla.serve server requests internals))) = 0%nat.
Proof.
  intros Hserver. induction requests as [| [i request] rest IH]; cbn [Banderilla.serve].
  - split; reflexivity.
  - destruct (server !! i) as [route |] eqn:Hroute; [| exact IH].
    rewrite Forall_forall in Hserver.
    destruct (quiet_run (Hapi.handler route request) w internals
                (Hserver route (list_elem_of_lookup_2 _ _ _ Hroute) request))
      as (o & l1 & E1 & Hl1).
    rewrite run_pbind, E1, run_pbind.
    destruct (run w (Banderilla.serve server rest internals)) as [[os internals''] l2].
    simpl in IH. destruct IH as [-> Hl2]. simpl.
    split; [reflexivity |].
    rewrite app_nil_r, count_app, Hl1, Hl2. reflexivity.
Qed.

(** ** Claim about the queue list *)

(** C9: start-up calls the [getQueues] factory exactly once and stores
    what it resolved to as the queue list; from then on, whatever
    requests are served, the factory is never called again and the
    internals, the queue list with them, are after every request what
    they were before it.  Each of the five handlers on its own leaves
    any internals unchanged.  The list the factory resolved to is the
    list every handler works on after start-up: index lists its queues,
    name by name and in its order, and retryAll, retry, promote and
    clean look the requested name up in it. *)
Theorem queue_list_resolved_once_then_fixed
    (w : World) (options : Banderilla.PluginOptions)
    (requests : list (nat * Hapi.Request)) :
  exists (server : list (Route Banderilla.Internals)) (started : Banderilla.Internals),
    run w (Banderilla.onPostStart [] (Banderilla.register options)) =
      (Returned server, started, [Called GetQueues]) /\
    count is_getQueues
      (calls w (Banderilla.onPostStart []) (Banderilla.register options)) = 1%nat /\
    Banderilla.queues started = Some (w _ GetQueues) /\
    snd (fst (run w (Banderilla.serve server requests started))) = started /\
    count is_getQueues (snd (run w (Banderilla.serve server requests started))) = 0%nat /\
    (forall (handle : Handler Banderilla.Internals),
       handle ∈ [ Banderilla.index; Banderilla.retryAll; Banderilla.clean;
                  Banderilla.retry; Banderilla.promote ] ->
       forall (request : Hapi.Request) (internals : Banderilla.Internals),
         final w (handle request) internals = internals /\
         count is_getQueues (calls w (handle request) internals) = 0%nat) /\
    forall request : Hapi.Request,
      let resolved := w _ GetQueues in
      let queueName := prop (Hapi.params request) "queue" in
      let jobId := prop (Hapi.params request) "job" in
      let status := prop (Hapi.params request) "status" in
      let answer404 :=
        Returned (Respond
          {| Hapi.source := VObj [ ("statusCode", VNum 404);
                                   ("error", VStr "Not Found");
                                   ("message", VStr "Not Found") ];
             Hapi.statusCode := 404 |}) in
      match resolved with
      | [] => result w (Banderilla.index request) started = Returned (StatsQueues ∅ [])
      | _ :: _ =>
          exists stats data,
            result w (Banderilla.index request) started = Returned (StatsData stats data) /\
            entry_name <$> data = name <$> resolved
      end /\
      result w (Banderilla.retryAll request) started =
        match find_queue resolved queueName with
        | None => answer404
        | Some _ => Returned Undefined
        end /\
      calls w (Banderilla.clean request) started =
        match find_queue resolved queueName with
        | None => []
        | Some queue => [Called (Clean queue 5000 status)]
        end /\
      calls w (Banderilla.retry request) started =
        match find_queue resolved queueName with
        | None => []
        | Some queue =>
            Called (GetJob queue jobId) ::
            match w _ (GetJob queue jobId) with
            | Some job => [Called (JobRetry job)]
            | None => []
            end
        end /\
      calls w (Banderilla.promote request) started =
        match find_queue resolved queueName with
        | None => []
        | Some queue =>
            Called (GetJob queue jobId) ::
            match w _ (GetJob queue jobId) with
            | Some job => [Called (JobPromote job)]
            | None => []
            end
        end.
Proof.
  assert (forall handle : Handler Banderilla.Internals,
            handle ∈ [ Banderilla.index; Banderilla.retryAll; Banderilla.clean;
                       Banderilla.retry; Banderilla.promote ] ->
            forall request, quiet (handle request)) as Hquiet.
  { intros handle Hin request. rewrite !elem_of_cons in Hin.
    destruct Hin as [-> | [-> | [-> | [-> | [-> | Hin]]]]].
    - apply quiet_index.
    - apply quiet_retryAll.
    - apply quiet_clean.
    - apply quiet_retry.
    - apply quiet_promote.
    - inversion Hin. }
  destruct (run_onPostStart w [] (Banderilla.register options))
    as (routes & Hrun & _ & _ & Hhandlers & _).
  exists routes, {| Banderilla.options := options; Banderilla.queues := Some (w _ GetQueues) |}.
  unfold calls. rewrite Hrun. cbn [snd fst app Banderilla.queues].
  split; [reflexivity |]. split; [reflexivity |]. split; [reflexivity |].
  assert (Forall (fun route => forall request, quiet (Hapi.handler route request)) routes)
    as Hserver.
  { apply Forall_forall. intros route Hroute request. apply Hquiet.
    rewrite <- Hhandlers. apply list_elem_of_fmap. exists route.
    split; [reflexivity | exact Hroute]. }
  split; [apply serve_quiet; exact Hserver |].
  split; [apply serve_quiet; exact Hserver |].
  split; [intros handle Hin request internals; apply (Hquiet handle Hin request w internals) |].
  intros request. cbv zeta.
  set (resolved := w _ GetQueues).
  set (queueName := prop (Hapi.params request) "queue").
  set (jobId := prop (Hapi.params request) "job").
  set (started := {| Banderilla.options := options; Banderilla.queues := Some resolved |}).
  assert (Banderilla.queues started = Some resolved) as Hqs by reflexivity.
  unfold result, calls.
  rewrite (run_retryAll w started resolved request Hqs),
    (run_clean w started resolved request Hqs),
    (run_retry w started resolved request Hqs),
    (run_promote w started resolved request Hqs).
  fold queueName jobId.
  split; [| split; [| split; [| split]]].
  - clearbody resolved. destruct resolved as [| first rest].
    + rewrite (run_index_empty w request started Hqs). reflexivity.
    + rewrite (run_index w request started first rest Hqs).
      eexists _, _. split; [reflexivity |].
      rewrite <- list_fmap_compose. reflexivity.
  - destruct (find_queue resolved queueName); reflexivity.
  - destruct (find_queue resolved queueName); reflexivity.
  - destruct (find_queue resolved queueName) as [queue |]; [| reflexivity].
    destruct (w _ (GetJob queue jobId)); reflexivity.
  - destruct (find_queue resolved queueName) as [queue |]; [| reflexivity].
    destruct (w _ (GetJob queue jobId)); reflexivity.
Qed.

Lemma queue_list_resolved_once_then_fixed_witness :
  exists (server : list (Route Banderilla.Internals)) (started : Banderilla.Internals),
    run Demo.world (Banderilla.onPostStart []
                      (Banderilla.register (Banderilla.options Demo.started))) =
      (Returned server, started, [Called GetQueues]) /\
    Banderilla.queues started = Some [Demo.mail; Demo.video] /\
    calls Demo.world (Banderilla.clean (Demo.request "video" "" "failed")) started =
      [Called (Clean Demo.video 5000 (VStr "failed"))] /\
    final Demo.world (Banderilla.clean (Demo.request "video" "" "failed")) started = started.
Proof.
  destruct (queue_list_resolved_once_then_fixed Demo.world
              (Banderilla.options Demo.started) [(3%nat, Demo.request "mail" "7" "")])
    as (server & started & Hrun & _ & Hqs & _ & _ & Hhandlers & Huse).
  exists server, started. split; [exact Hrun |]. split; [exact Hqs |].
  destruct (Huse (Demo.request "video" "" "failed")) as (_ & _ & Hclean & _).
  split; [exact Hclean |].
  apply (Hhandlers Banderilla.clean). do 2 right. left.
Defined.

(** ** The two versions of the plugin, side by side *)

Lemma run_lib_onPostStart (w : World)
    (server : list (Route (option LibIndex.QueuesController)))
    (options : LibIndex.PluginOptions) :
  exists routes,
    run w (LibIndex.onPostStart server options) =
      (Returned (server ++ routes)%list, options, []) /\
    Hapi.method <$> routes = ["GET"; "PUT"; "PUT"; "PUT"; "PUT"] /\
    Hapi.path <$> routes =
      (fun tail => template (LibIndex.path options) +:+ tail) <$>
        [ "/queues";
          "/queues/retry";
          "/queues/{queue}/retry";
          "/queues/{queue}/promote";
          "/queues/{queue}/clean/{status}" ] /\
    Hapi.handler <$> routes =
      [ LibIndex.index; LibIndex.retryAll; LibIndex.retry;
        LibIndex.promote; LibIndex.clean ].
Proof.
  unfold LibIndex.onPostStart. rewrite run_bind_this, run_ret.
  eexists. split; [reflexivity |].
  repeat split; reflexivity.
Qed.





(** ** Beyond the claims: what the index handler calls *)

(** Before start-up the queue list is unset, and a handler that ran then
    would throw at its first use of the list, having called nothing. *)
Lemma run_unstarted (w : World) (request : Hapi.Request) (internals : Banderilla.Internals)
    (handle : Handler Banderilla.Internals) :
  Banderilla.queues internals = None ->
  handle ∈ [ Banderilla.index; Banderilla.retryAll; Banderilla.clean;
             Banderilla.retry; Banderilla.promote ] ->
  run w (handle request internals) = (Thrown "TypeError", internals, []).
Proof.
  intros Hqs Hin. rewrite !elem_of_cons in Hin.
  destruct Hin as [-> | [-> | [-> | [-> | [-> | Hin]]]]]; [.. | inversion Hin];
    unfold Banderilla.index, Banderilla.retryAll, Banderilla.clean, Banderilla.retry,
      Banderilla.promote, Banderilla.internals_queues;
    rewrite run_bind_this, Hqs; reflexivity.
Qed.

Lemma entry_calls_cons (query : jsobj) (q : Queue) (rest : list Queue) :
  mjoin (entry_calls query <$> q :: rest) =
  (entry_calls query q ++ mjoin (entry_calls query <$> rest))%list.
Proof. reflexivity. Qed.

Lemma Forall_entry_calls (P : event -> Prop) (query : jsobj) (qs : list Queue) :
  (forall queue, Forall P (entry_calls query queue)) ->
  Forall P (mjoin (entry_calls query <$> qs)).
Proof.
  intros Hentry. induction qs as [| q rest IH]; [constructor |].
  rewrite entry_calls_cons. apply Forall_app. split; [apply Hentry | exact IH].
Qed.

Lemma count_entry_calls (f : event -> bool) (n : nat) (query : jsobj) (qs : list Queue) :
  (forall queue, count f (entry_calls query queue) = n) ->
  count f (mjoin (entry_calls query <$> qs)) = (n * length qs)%nat.
Proof.
  intros Hentry. induction qs as [| q rest IH].
  - rewrite Nat.mul_0_r. reflexivity.
  - rewrite entry_calls_cons, count_app, Hentry, IH.
    cbn [length]. rewrite Nat.mul_succ_r. lia.
Qed.

(** The calls of the index handler, whatever the state it runs in. *)
Lemma calls_index (w : World) (request : Hapi.Request) (internals : Banderilla.Internals) :
  calls w (Banderilla.index request) internals =
  match Banderilla.queues internals with
  | Some (first :: rest) =>
      Called (Info (client first)) ::
      Called (ParseRedisInfo (w _ (Info (client first)))) ::
      mjoin (entry_calls (default ∅ (Hapi.query request)) <$> first :: rest)
  | _ => []
  end.
Proof.
  unfold calls. destruct (Banderilla.queues internals) as [[| first rest] |] eqn:Hqs.
  - rewrite (run_index_empty w request internals Hqs). reflexivity.
  - rewrite (run_index w request internals first rest Hqs). reflexivity.
  - rewrite (run_unstarted w request internals Banderilla.index Hqs); [reflexivity | left].
Qed.

(** X1: the index handler only reads.  Whatever the queue list, the
    query and the answers of the collaborators, every call it issues is
    a store info, the parsing of one, a job count or a job listing:
    it never retries or promotes a job, never cleans a queue, never looks
    a single job up and never calls the queue factory. *)
Theorem index_only_reads
    (w : World) (request : Hapi.Request) (internals : Banderilla.Internals) :
  Forall (fun e => reads_only e = true) (calls w (Banderilla.index request) internals) /\
  count mutates (calls w (Banderilla.index request) internals) = 0%nat /\
  count is_getQueues (calls w (Banderilla.index request) internals) = 0%nat.
Proof.
  rewrite calls_index.
  destruct (Banderilla.queues internals) as [[| first rest] |];
    try (repeat split; constructor).
  split; [| split].
  - do 2 (constructor; [reflexivity |]).
    apply Forall_entry_calls. intros queue. repeat constructor.
  - change (count mutates (mjoin (entry_calls (default ∅ (Hapi.query request)) <$>
                                    first :: rest)) = 0%nat).
    rewrite (count_entry_calls mutates 0); [reflexivity |]. intros queue. reflexivity.
  - change (count is_getQueues (mjoin (entry_calls (default ∅ (Hapi.query request)) <$>
                                         first :: rest)) = 0%nat).
    rewrite (count_entry_calls is_getQueues 0); [reflexivity |]. intros queue. reflexivity.
Qed.

Lemma asked_queues (query : jsobj) (qs : list Queue) :
  omap counted_queue (mjoin (entry_calls query <$> qs)) = qs /\
  omap listed_queue (mjoin (entry_calls query <$> qs)) = qs.
Proof.
  induction qs as [| q rest [IHc IHl]]; [split; reflexivity |].
  rewrite entry_calls_cons, !omap_app, IHc, IHl. split; reflexivity.
Qed.

(** X2: for a non-empty queue list the index handler asks for the store
    info exactly once, through the client of the first queue and of no
    other, and asks each queue of the list exactly once for its counts
    and exactly once for its jobs: the queues asked are, up to the
    order of the calls, the queues of the list. *)
Theorem index_asks_each_queue_once
    (w : World) (request : Hapi.Request) (internals : Banderilla.Internals)
    (first : Queue) (rest : list Queue) :
  Banderilla.queues internals = Some (first :: rest) ->
  let log := calls w (Banderilla.index request) internals in
  count is_info log = 1%nat /\
  (forall c, Called (Info c) ∈ log -> c = client first) /\
  omap counted_queue log ≡ₚ first :: rest /\
  omap listed_queue log ≡ₚ first :: rest.
Proof.
  intros Hqs log. subst log. rewrite calls_index, Hqs.
  set (query := default ∅ (Hapi.query request)).
  set (each := mjoin (entry_calls query <$> first :: rest)).
  assert (count is_info each = 0%nat) as Hinfo.
  { unfold each. rewrite (count_entry_calls is_info 0); [reflexivity |]. reflexivity. }
  destruct (asked_queues query (first :: rest)) as [Hcounted Hlisted].
  fold each in Hcounted, Hlisted.
  split; [| split; [| split]].
  - change (S (count is_info each) = 1%nat). rewrite Hinfo. reflexivity.
  - intros c Hc. apply elem_of_cons in Hc as [Hc | Hc].
    + apply (f_equal (fun e => match e with
                               | Called (Info c') => c'
                               | Called _ => c
                               end)) in Hc.
      exact Hc.
    + apply elem_of_cons in Hc as [Hc | Hc].
      * apply (f_equal is_info) in Hc. discriminate Hc.
      * exfalso.
        assert (Forall (fun e => is_info e = false) each) as Hnone.
        { apply Forall_entry_calls. intros queue. repeat constructor. }
        rewrite Forall_forall in Hnone. specialize (Hnone _ Hc). discriminate Hnone.
  - change (omap counted_queue each ≡ₚ first :: rest). rewrite Hcounted. reflexivity.
  - change (omap listed_queue each ≡ₚ first :: rest). rewrite Hlisted. reflexivity.
Qed.

Lemma index_asks_each_queue_once_witness :
  omap listed_queue
    (calls Demo.world (Banderilla.index (Demo.request "" "" "")) Demo.crowded) ≡ₚ
  [Demo.video; Demo.mail; Demo.shadowed].
Proof.
  destruct (index_asks_each_queue_once Demo.world (Demo.request "" "" "") Demo.crowded
              Demo.video [Demo.mail; Demo.shadowed]) as (_ & _ & _ & Hlisted).
  - reflexivity.
  - exact Hlisted.
Defined.

(** X3: every job count the index handler asks for names exactly the six
    statuses, and every job listing it asks for has the arguments 0 and
    10 and, as its filter, the array of the six statuses when the query
    value under the queue's name is the string ["latest"], and that
    query value itself otherwise (an array that contains the word is
    passed as it is).  The bare string ["latest"] is therefore never the
    filter of a listing. *)
Theorem index_read_arguments
    (w : World) (request : Hapi.Request) (internals : Banderilla.Internals) :
  Forall (read_arguments (default ∅ (Hapi.query request)))
         (calls w (Banderilla.index request) internals).
Proof.
  rewrite calls_index.
  destruct (Banderilla.queues internals) as [[| first rest] |]; try constructor.
  - exact I.
  - constructor; [exact I |].
    apply Forall_entry_calls. intros queue. unfold entry_calls.
    constructor; [reflexivity |]. constructor; [| constructor].
    cbn [read_arguments]. cbv zeta. unfold status_filter.
    split; [reflexivity |]. split; [reflexivity |].
    destruct (strict_eq_str (prop (default ∅ (Hapi.query request)) (name queue)) "latest")
      eqn:E.
    + apply strict_eq_str_true in E.
      split; [reflexivity |]. split; [intros Hne; contradiction | discriminate].
    + apply strict_eq_str_false in E.
      split; [intros Heq; contradiction |]. split; [reflexivity | exact E].
Qed.

(** ** Beyond the claims: the lookups *)

(** With the queue list set, a handler returns. *)
Lemma started_handler_returns (w : World) (request : Hapi.Request)
    (internals : Banderilla.Internals) (qs : list Queue)
    (handle : Handler Banderilla.Internals) :
  Banderilla.queues internals = Some qs ->
  handle ∈ [ Banderilla.index; Banderilla.retryAll; Banderilla.clean;
             Banderilla.retry; Banderilla.promote ] ->
  exists r, result w (handle request) internals = Returned r.
Proof.
  intros Hqs Hin. rewrite !elem_of_cons in Hin. unfold result.
  destruct Hin as [-> | [-> | [-> | [-> | [-> | Hin]]]]]; [.. | inversion Hin].
  - destruct qs as [| first rest].
    + rewrite (run_index_empty w request internals Hqs). eauto.
    + rewrite (run_index w request internals first rest Hqs). eauto.
  - rewrite (run_retryAll w internals qs request Hqs).
    destruct (find_queue qs _); eauto.
  - rewrite (run_clean w internals qs request Hqs).
    destruct (find_queue qs _); eauto.
  - rewrite (run_retry w internals qs request Hqs).
    destruct (find_queue qs _) as [queue |]; [| eauto].
    destruct (w _ (GetJob queue _)); eauto.
  - rewrite (run_promote w internals qs request Hqs).
    destruct (find_queue qs _) as [queue |]; [| eauto].
    destruct (w _ (GetJob queue _)); eauto.
Qed.

Lemma plugin_handlers_quiet (handle : Handler Banderilla.Internals)
    (request : Hapi.Request) :
  handle ∈ [ Banderilla.index; Banderilla.retryAll; Banderilla.clean;
             Banderilla.retry; Banderilla.promote ] ->
  quiet (handle request).
Proof.
  intros Hin. rewrite !elem_of_cons in Hin.
  destruct Hin as [-> | [-> | [-> | [-> | [-> | Hin]]]]]; [.. | inversion Hin].
  - apply quiet_index.
  - apply quiet_retryAll.
  - apply quiet_clean.
  - apply quiet_retry.
  - apply quiet_promote.
Qed.

(** Served over the table of the plugin from internals whose queue list
    is set, every request returns. *)
Lemma serve_returns (w : World) (server : list (Route Banderilla.Internals))
    (requests : list (nat * Hapi.Request)) (internals : Banderilla.Internals)
    (qs : list Queue) :
  Banderilla.queues internals = Some qs ->
  Forall (fun route =>
            Hapi.handler route ∈ [ Banderilla.index; Banderilla.retryAll; Banderilla.clean;
                                   Banderilla.retry; Banderilla.promote ]) server ->
  Forall (fun o => exists r, o = Returned r)
         (fst (fst (run w (Banderilla.serve server requests internals)))) /\
  length (fst (fst (run w (Banderilla.serve server requests internals)))) =
    length (List.filter (fun '(i, _) => bool_decide (i < length server)%nat) requests).
Proof.
  intros Hqs Hserver. rewrite Forall_forall in Hserver.
  induction requests as [| [i request] rest IH]; cbn [Banderilla.serve List.filter].
  - split; [constructor | reflexivity].
  - destruct (server !! i) as [route |] eqn:Hroute.
    + rewrite bool_decide_eq_true_2 by (eapply lookup_lt_Some; exact Hroute).
      pose proof (Hserver route (list_elem_of_lookup_2 _ _ _ Hroute)) as Hin.
      destruct (started_handler_returns w request internals qs _ Hqs Hin) as [r Hr].
      pose proof (plugin_handlers_quiet _ request Hin) as Hquiet.
      destruct (quiet_run (Hapi.handler route request) w internals Hquiet)
        as (o & l1 & E1 & _).
      assert (o = Returned r) as ->.
      { transitivity (fst (fst (run w (Hapi.handler route request internals)))).
        - rewrite E1. reflexivity.
        - exact Hr. }
      rewrite run_pbind, E1, run_pbind.
      destruct (run w (Banderilla.serve server rest internals)) as [[os internals''] l2].
      simpl in IH. simpl. destruct IH as [IHall IHlen].
      split; [constructor; [eauto | exact IHall] | rewrite IHlen; reflexivity].
    + rewrite bool_decide_eq_false_2 by (apply Nat.nlt_ge, lookup_ge_None; exact Hroute).
      exact IH.
Qed.

(** X4: once start-up has run, no handler throws on the queue list:
    whatever the requests and the routes they name, the handler of each
    request that names a registered route returns, and the other
    requests never reach a handler.  What is returned is a reply object
    or a toolkit response for index, retry, promote and clean; retryAll
    returns the 404 response when no queue has the requested name and
    returns no value at all when one has. *)
Theorem served_requests_do_not_throw
    (w : World) (options : Banderilla.PluginOptions)
    (requests : list (nat * Hapi.Request)) :
  exists (server : list (Route Banderilla.Internals)) (started : Banderilla.Internals),
    run w (Banderilla.onPostStart [] (Banderilla.register options)) =
      (Returned server, started, [Called GetQueues]) /\
    let replies := fst (fst (run w (Banderilla.serve server requests started))) in
    Forall (fun o => exists r, o = Returned r) replies /\
    length replies =
      length (List.filter (fun '(i, _) => bool_decide (i < 5)%nat) requests) /\
    forall request : Hapi.Request,
      (forall handle : Handler Banderilla.Internals,
         handle ∈ [ Banderilla.index; Banderilla.clean;
                    Banderilla.retry; Banderilla.promote ] ->
         exists r, result w (handle request) started = Returned r /\ r <> Undefined) /\
      ((forall q, q ∈ w _ GetQueues -> prop (Hapi.params request) "queue" <> VStr (name q)) ->
         result w (Banderilla.retryAll request) started =
           Returned (Respond
             {| Hapi.source := VObj [ ("statusCode", VNum 404);
                                      ("error", VStr "Not Found");
                                      ("message", VStr "Not Found") ];
                Hapi.statusCode := 404 |})) /\
      ((exists q, q ∈ w _ GetQueues /\ prop (Hapi.params request) "queue" = VStr (name q)) ->
         result w (Banderilla.retryAll request) started = Returned Undefined).
Proof.
  destruct (run_onPostStart w [] (Banderilla.register options))
    as (routes & Hrun & Hm & _ & Hhandlers & _).
  set (started := {| Banderilla.options := options;
                     Banderilla.queues := Some (w _ GetQueues) |}).
  exists routes, started.
  split; [exact Hrun |].
  assert (length routes = 5%nat) as Hlen
    by (rewrite <- (length_fmap Hapi.method), Hm; reflexivity).
  rewrite <- Hlen.
  assert (Banderilla.queues started = Some (w _ GetQueues)) as Hqs by reflexivity.
  cbv zeta. split; [| split].
  - apply (serve_returns w routes requests started (w _ GetQueues) Hqs).
    apply Forall_forall. intros route Hroute.
    rewrite <- Hhandlers. apply list_elem_of_fmap. exists route.
    split; [reflexivity | exact Hroute].
  - apply (serve_returns w routes requests started (w _ GetQueues) Hqs).
    apply Forall_forall. intros route Hroute.
    rewrite <- Hhandlers. apply list_elem_of_fmap. exists route.
    split; [reflexivity | exact Hroute].
  - intros request. unfold result.
    rewrite (run_retryAll w started (w _ GetQueues) request Hqs).
    split; [| split].
    + intros handle Hin. rewrite !elem_of_cons in Hin.
      destruct Hin as [-> | [-> | [-> | [-> | Hin]]]]; [.. | inversion Hin].
      * destruct (w _ GetQueues) as [| first rest] eqn:Hresolved.
        -- rewrite (run_index_empty w request started Hqs). eexists. split; [reflexivity | discriminate].
        -- rewrite (run_index w request started first rest Hqs).
           eexists. split; [reflexivity | discriminate].
      * rewrite (run_clean w started (w _ GetQueues) request Hqs).
        destruct (find_queue _ _); eexists; (split; [reflexivity | discriminate]).
      * rewrite (run_retry w started (w _ GetQueues) request Hqs).
        destruct (find_queue _ _) as [queue |];
          [destruct (w _ (GetJob queue _)) |]; eexists; (split; [reflexivity | discriminate]).
      * rewrite (run_promote w started (w _ GetQueues) request Hqs).
        destruct (find_queue _ _) as [queue |];
          [destruct (w _ (GetJob queue _)) |]; eexists; (split; [reflexivity | discriminate]).
    + intros Hnone. apply find_queue_None in Hnone. rewrite Hnone. reflexivity.
    + intros (q & Hq & Hname).
      destruct (find_queue (w _ GetQueues) (prop (Hapi.params request) "queue"))
        eqn:Hfind; [reflexivity |].
      exfalso. rewrite find_queue_None in Hfind. exact (Hfind q Hq Hname).
Qed.

Lemma served_requests_do_not_throw_witness :
  exists (server : list (Route Banderilla.Internals)) (started : Banderilla.Internals),
    run Demo.world (Banderilla.onPostStart []
                      (Banderilla.register (Banderilla.options Demo.started))) =
      (Returned server, started, [Called GetQueues]) /\
    result Demo.world (Banderilla.retryAll (Demo.request "mail" "" "")) started =
      Returned Undefined.
Proof.
  destruct (served_requests_do_not_throw Demo.world (Banderilla.options Demo.started) [])
    as (server & started & Hrun & _ & _ & Huse).
  exists server, started. split; [exact Hrun |].
  destruct (Huse (Demo.request "mail" "" "")) as (_ & _ & Hfound).
  apply Hfound. exists Demo.mail. split; [left | reflexivity].
Defined.

(** X5: a request whose [queue] path parameter is missing, or is
    anything but a string, is answered 404 by retryAll, retry, promote
    and clean alike, whatever the queue list, and without a single call
    to a queue or a job. *)
Theorem lookup_without_name_is_not_found
    (w : World) (internals : Banderilla.Internals) (qs : list Queue)
    (request : Hapi.Request) (handle : Handler Banderilla.Internals) :
  Banderilla.queues internals = Some qs ->
  (forall s, prop (Hapi.params request) "queue" <> VStr s) ->
  handle ∈ [ Banderilla.retryAll; Banderilla.retry; Banderilla.promote; Banderilla.clean ] ->
  result w (handle request) internals =
    Returned (Respond
      {| Hapi.source := VObj [ ("statusCode", VNum 404);
                               ("error", VStr "Not Found");
                               ("message", VStr "Not Found") ];
         Hapi.statusCode := 404 |}) /\
  calls w (handle request) internals = [].
Proof.
  intros Hqs Hname Hin.
  assert (find_queue qs (prop (Hapi.params request) "queue") = None) as Hfind.
  { apply find_queue_None. intros q _. apply Hname. }
  rewrite !elem_of_cons in Hin. unfold result, calls.
  destruct Hin as [-> | [-> | [-> | [-> | Hin]]]]; [.. | inversion Hin].
  - rewrite (run_retryAll w internals qs request Hqs), Hfind. repeat split.
  - rewrite (run_retry w internals qs request Hqs), Hfind. repeat split.
  - rewrite (run_promote w internals qs request Hqs), Hfind. repeat split.
  - rewrite (run_clean w internals qs request Hqs), Hfind. repeat split.
Qed.

Lemma lookup_without_name_is_not_found_witness :
  result Demo.world (Banderilla.clean Demo.bare) Demo.started =
    Returned (Respond Banderilla.notFound) /\
  calls Demo.world (Banderilla.clean Demo.bare) Demo.started = [].
Proof.
  destruct (lookup_without_name_is_not_found Demo.world Demo.started [Demo.mail; Demo.video]
              Demo.bare Banderilla.clean) as (Hr & Hc).
  - reflexivity.
  - intros s. discriminate.
  - do 3 right. left.
  - split; [exact Hr | exact Hc].
Defined.

(** X6: when several queues of the list have the requested name, the
    first of them is the one acted on: clean cleans it and no other,
    retry and promote look the job up in it and in no other, whatever
    follows it in the list. *)
Theorem first_queue_of_a_name_wins
    (w : World) (internals : Banderilla.Internals)
    (before after : list Queue) (queue : Queue) (request : Hapi.Request) :
  let jobId := prop (Hapi.params request) "job" in
  let status := prop (Hapi.params request) "status" in
  Banderilla.queues internals = Some (before ++ queue :: after)%list ->
  prop (Hapi.params request) "queue" = VStr (name queue) ->
  (forall p, p ∈ before -> name p <> name queue) ->
  calls w (Banderilla.clean request) internals = [Called (Clean queue 5000 status)] /\
  calls w (Banderilla.retry request) internals =
    Called (GetJob queue jobId) ::
    match w _ (GetJob queue jobId) with
    | Some job => [Called (JobRetry job)]
    | None => []
    end /\
  calls w (Banderilla.promote request) internals =
    Called (GetJob queue jobId) ::
    match w _ (GetJob queue jobId) with
    | Some job => [Called (JobPromote job)]
    | None => []
    end.
Proof.
  intros jobId status Hqs Hname Hbefore.
  assert (find_queue (before ++ queue :: after) (prop (Hapi.params request) "queue") =
          Some queue) as Hfind.
  { apply find_queue_Some. exists before, after. split; [reflexivity |].
    split; [exact Hname |].
    intros p Hp. rewrite Hname. intros [= Heq]. apply (Hbefore p Hp). symmetry. exact Heq. }
  unfold calls.
  rewrite (run_clean w internals _ request Hqs), (run_retry w internals _ request Hqs),
    (run_promote w internals _ request Hqs), Hfind.
  fold jobId status. split; [reflexivity |].
  destruct (w _ (GetJob queue jobId)) as [job |]; split; reflexivity.
Qed.

Lemma first_queue_of_a_name_wins_witness :
  calls Demo.world (Banderilla.clean (Demo.request "mail" "7" "failed")) Demo.crowded =
    [Called (Clean Demo.mail 5000 (VStr "failed"))].
Proof.
  destruct (first_queue_of_a_name_wins Demo.world Demo.crowded
              [Demo.video] [Demo.shadowed] Demo.mail (Demo.request "mail" "7" "failed"))
    as (Hclean & _).
  - reflexivity.
  - reflexivity.
  - intros p Hp. apply list_elem_of_singleton in Hp as ->. discriminate.
  - exact Hclean.
Defined.

(** X7: a handler changes at most one thing, and only of its own kind.
    In every state and world retryAll issues no retry, promote or clean
    at all; retry issues at most one retry and no promote or clean;
    promote at most one promote and no retry or clean; clean at most one
    clean and no retry or promote. *)
Theorem handlers_mutate_their_own_kind_only
    (w : World) (request : Hapi.Request) (internals : Banderilla.Internals) :
  count mutates (calls w (Banderilla.retryAll request) internals) = 0%nat /\
  (count is_retry (calls w (Banderilla.retry request) internals) <= 1)%nat /\
  count is_promote (calls w (Banderilla.retry request) internals) = 0%nat /\
  count is_clean (calls w (Banderilla.retry request) internals) = 0%nat /\
  (count is_promote (calls w (Banderilla.promote request) internals) <= 1)%nat /\
  count is_retry (calls w (Banderilla.promote request) internals) = 0%nat /\
  count is_clean (calls w (Banderilla.promote request) internals) = 0%nat /\
  (count is_clean (calls w (Banderilla.clean request) internals) <= 1)%nat /\
  count is_retry (calls w (Banderilla.clean request) internals) = 0%nat /\
  count is_promote (calls w (Banderilla.clean request) internals) = 0%nat.
Proof.
  unfold calls. destruct (Banderilla.queues internals) as [qs |] eqn:Hqs.
  - rewrite (run_retryAll w internals qs request Hqs), (run_retry w internals qs request Hqs),
      (run_promote w internals qs request Hqs), (run_clean w internals qs request Hqs).
    destruct (find_queue qs _) as [queue |]; [| repeat split; cbn; lia].
    destruct (w _ (GetJob queue _)); repeat split; cbn; lia.
  - rewrite !(run_unstarted w request internals _ Hqs)
      by (rewrite !elem_of_cons; tauto).
    repeat split; cbn; lia.
Qed.

(** ** Beyond the claims: the route table *)

(** X8: the five routes of the plugin have five different paths,
    whatever the base path, so that no two of them can answer the same
    request; the same holds for the five routes of [lib/index.ts]. *)
Theorem route_paths_distinct
    (w : World) (options : Banderilla.PluginOptions) (lib_options : LibIndex.PluginOptions) :
  exists (routes : list (Route Banderilla.Internals))
         (lib_routes : list (Route (option LibIndex.QueuesController))),
    result w (Banderilla.onPostStart []) (Banderilla.register options) = Returned routes /\
    result w (LibIndex.onPostStart []) lib_options = Returned lib_routes /\
    NoDup (Hapi.path <$> routes) /\
    NoDup (Hapi.path <$> lib_routes).
Proof.
  destruct (run_onPostStart w [] (Banderilla.register options))
    as (routes & Hrun & _ & Hp & _).
  destruct (run_lib_onPostStart w [] lib_options) as (lib_routes & Hlib & _ & Hp' & _).
  exists routes, lib_routes. unfold result. rewrite Hrun, Hlib.
  split; [reflexivity |]. split; [reflexivity |].
  rewrite Hp, Hp'. split.
  - apply (NoDup_fmap_2 (String.append _)).
    refine (bool_decide_unpack _ _). vm_compute. exact I.
  - apply (NoDup_fmap_2 (String.append _)).
    refine (bool_decide_unpack _ _). vm_compute. exact I.
Qed.

(** ** Beyond the claims: what a reply shows *)

(** X11: a formatted job has the twelve keys [id], [timestamp],
    [processedOn], [finishedOn], [progress], [attempts], [delay],
    [failedReason], [stacktrace], [opts], [data] and [name], in this
    order, whatever the job; and it shows nothing else of the job: two
    jobs whose JSON forms agree on the eleven properties read from them
    ([attemptsMade] for [attempts]) and whose options agree on [delay]
    are formatted alike, whatever else they hold. *)
Theorem formatJob_shows_twelve_fields (job job' : Job) :
  literal_keys (formatJob job) =
    [ "id"; "timestamp"; "processedOn"; "finishedOn"; "progress"; "attempts";
      "delay"; "failedReason"; "stacktrace"; "opts"; "data"; "name" ] /\
  ((forall k, k ∈ [ "id"; "timestamp"; "processedOn"; "finishedOn"; "progress";
                    "attemptsMade"; "failedReason"; "stacktrace"; "opts"; "data"; "name" ] ->
      prop (toJSON job) k = prop (toJSON job') k) ->
   prop (opts job) "delay" = prop (opts job') "delay" ->
   formatJob job = formatJob job').
Proof.
  split; [reflexivity |].
  intros Hjson Hdelay. unfold formatJob. cbv zeta.
  rewrite Hdelay.
  rewrite !Hjson by (rewrite !elem_of_cons; tauto).
  reflexivity.
Qed.

Lemma formatJob_shows_twelve_fields_witness :
  formatJob Demo.job7 = formatJob Demo.job7_verbose.
Proof.
  apply (formatJob_shows_twelve_fields Demo.job7 Demo.job7_verbose).
  - intros k Hk. rewrite !elem_of_cons in Hk.
    destruct Hk as [-> | [-> | [-> | [-> | [-> | [-> | [-> | [-> | [-> | [-> | [-> | Hk]]]]]]]]]]];
      [reflexivity .. | inversion Hk].
  - reflexivity.
Defined.

(** X12: for a non-empty queue list the [stats] of the index reply are
    never empty and never hold more than six entries: the key
    [total_system_memory] is always there, and when the store info has
    neither a [total_system_memory] nor a [maxmemory] entry its value is
    [undefined]. *)
Theorem index_stats_always_has_total
    (w : World) (request : Hapi.Request) (internals : Banderilla.Internals)
    (first : Queue) (rest : list Queue) :
  let redisInfo := w _ (ParseRedisInfo (w _ (Info (client first)))) in
  Banderilla.queues internals = Some (first :: rest) ->
  exists stats data,
    result w (Banderilla.index request) internals = Returned (StatsData stats data) /\
    "total_system_memory" ∈ dom stats /\
    (1 <= size stats <= 6)%nat /\
    (redisInfo !! "total_system_memory" = None ->
     redisInfo !! "maxmemory" = None ->
     stats !! "total_system_memory" = Some VUndefined).
Proof.
  intros redisInfo Hqs.
  exists (collect_stats redisInfo),
         (entry_of w (default ∅ (Hapi.query request)) <$> first :: rest).
  unfold result. rewrite (run_index w request internals first rest Hqs).
  split; [reflexivity |].
  assert ("total_system_memory" ∈ dom (collect_stats redisInfo)) as Htotal
    by (apply collect_stats_keys; right; reflexivity).
  split; [exact Htotal |]. split; [split |].
  - rewrite <- size_dom.
    destruct (decide (size (dom (collect_stats redisInfo)) = 0%nat)) as [Hzero | Hpos]; [| lia].
    apply size_empty_inv in Hzero. rewrite Hzero in Htotal. set_solver.
  - rewrite <- size_dom.
    transitivity (size (list_to_set ("total_system_memory" :: metrics) : gset string)).
    + apply subseteq_size. intros k Hk. apply collect_stats_keys in Hk.
      apply elem_of_list_to_set. destruct Hk as [[Hk _] | ->]; [right; exact Hk | left].
    + rewrite size_list_to_set; [reflexivity |].
      refine (bool_decide_unpack _ _). vm_compute. exact I.
  - intros Hnone Hmax. rewrite collect_stats_total.
    unfold js_or, prop. rewrite Hnone, Hmax. reflexivity.
Qed.

Lemma index_stats_always_has_total_witness :
  exists stats data,
    result Demo.world (Banderilla.index (Demo.request "" "" "")) Demo.started =
      Returned (StatsData stats data) /\
    "total_system_memory" ∈ dom stats.
Proof.
  destruct (index_stats_always_has_total Demo.world (Demo.request "" "" "") Demo.started
              Demo.mail [Demo.video]) as (stats & data & Hr & Hin & _).
  - reflexivity.
  - exists stats, data. split; [exact Hr | exact Hin].
Defined.

(** ** Beyond the claims: [lib/index.ts] on its own *)

Lemma calls_lib_index (w : World) (request : Hapi.Request)
    (receiver : option LibIndex.QueuesController) :
  run w (LibIndex.index request receiver) =
  match receiver with
  | None => (Thrown "TypeError", None, [])
  | Some controller =>
      match LibIndex.queues (LibIndex.options controller) with
      | [] => (Returned (StatsQueues ∅ []), Some controller, [])
      | first :: rest =>
          (Returned (StatsData
             (collect_stats (w _ (ParseRedisInfo (w _ (Info (client first))))))
             (pending_counts <$>
                (entry_of w (default ∅ (Hapi.query request)) <$> first :: rest))),
           Some controller,
           Called (Info (client first)) ::
           Called (ParseRedisInfo (w _ (Info (client first)))) ::
           mjoin (entry_calls (default ∅ (Hapi.query request)) <$> first :: rest))
      end
  end.
Proof.
  destruct receiver as [controller |]; [| reflexivity].
  destruct (LibIndex.queues (LibIndex.options controller)) as [| first rest] eqn:Hqs.
  - apply run_lib_index_empty. exact Hqs.
  - apply run_lib_index. exact Hqs.
Qed.

(** X13: [lib/index.ts] changes nothing anywhere.  Its start-up calls no
    collaborator and leaves the options as they were.  Called as hapi
    calls them, without a receiver, its index handler throws a
    [TypeError] before any call, and its four other handlers return
    nothing and call nothing, whatever the receiver.  On whatever
    receiver the index handler is run, it leaves the receiver as it was
    and issues reads only: no retry, no promote, no clean and no call of
    a queue factory. *)
Theorem lib_index_changes_nothing
    (w : World) (request : Hapi.Request) (options : LibIndex.PluginOptions)
    (server : list (Route (option LibIndex.QueuesController))) :
  calls w (LibIndex.onPostStart server) options = [] /\
  final w (LibIndex.onPostStart server) options = options /\
  (result w (LibIndex.index request) None = Thrown "TypeError" /\
   calls w (LibIndex.index request) None = []) /\
  (forall handle : Handler (option LibIndex.QueuesController),
     handle ∈ [ LibIndex.retryAll; LibIndex.retry; LibIndex.promote; LibIndex.clean ] ->
     forall receiver : option LibIndex.QueuesController,
       result w (handle request) receiver = Returned Undefined /\
       final w (handle request) receiver = receiver /\
       calls w (handle request) receiver = []) /\
  forall receiver : option LibIndex.QueuesController,
    final w (LibIndex.index request) receiver = receiver /\
    Forall (fun e => reads_only e = true) (calls w (LibIndex.index request) receiver) /\
    count mutates (calls w (LibIndex.index request) receiver) = 0%nat /\
    count is_getQueues (calls w (LibIndex.index request) receiver) = 0%nat.
Proof.
  destruct (run_lib_onPostStart w server options) as (routes & Hstart & _).
  unfold calls, final, result. rewrite Hstart.
  split; [reflexivity |]. split; [reflexivity |].
  split; [split; reflexivity |]. split.
  - intros handle Hin receiver. rewrite !elem_of_cons in Hin.
    destruct Hin as [-> | [-> | [-> | [-> | Hin]]]];
      [repeat split; reflexivity .. | inversion Hin].
  - intros receiver. rewrite calls_lib_index.
    destruct receiver as [controller |]; [| repeat split; constructor].
    destruct (LibIndex.queues (LibIndex.options controller)) as [| first rest];
      [repeat split; constructor |].
    split; [reflexivity |]. split; [| split].
    + do 2 (constructor; [reflexivity |]).
      apply Forall_entry_calls. intros queue. repeat constructor.
    + change (count mutates (mjoin (entry_calls (default ∅ (Hapi.query request)) <$>
                                      first :: rest)) = 0%nat).
      rewrite (count_entry_calls mutates 0); [reflexivity |]. intros queue. reflexivity.
    + change (count is_getQueues (mjoin (entry_calls (default ∅ (Hapi.query request)) <$>
                                           first :: rest)) = 0%nat).
      rewrite (count_entry_calls is_getQueues 0); [reflexivity |]. intros queue. reflexivity.
Qed.

Lemma lib_index_changes_nothing_witness :
  result Demo.world (LibIndex.clean (Demo.request "mail" "" "failed")) None =
    Returned Undefined /\
  calls Demo.world (LibIndex.clean (Demo.request "mail" "" "failed")) None = [].
Proof.
  destruct (lib_index_changes_nothing Demo.world (Demo.request "mail" "" "failed")
              Demo.static []) as (_ & _ & _ & Hstubs & _).
  destruct (Hstubs LibIndex.clean) with (receiver := @None LibIndex.QueuesController)
    as (Hr & _ & Hc).
  - do 3 right. left.
  - split; [exact Hr | exact Hc].
Defined.

(** ** Beyond the claims: the index reply and the other routes together *)

(** X14: the queue names the index reply lists are exactly the names the
    clean route accepts: with the queue list set and not empty, a clean
    request is answered 200 when its [queue] parameter is the name of
    some entry of the [data] array, and 404 when it is a string that
    names no entry. *)
Theorem listed_names_are_the_accepted_names
    (w : World) (internals : Banderilla.Internals) (first : Queue) (rest : list Queue)
    (listing request : Hapi.Request) (queueName : string) :
  Banderilla.queues internals = Some (first :: rest) ->
  prop (Hapi.params request) "queue" = VStr queueName ->
  exists stats data,
    result w (Banderilla.index listing) internals = Returned (StatsData stats data) /\
    (queueName ∈ entry_name <$> data ->
       result w (Banderilla.clean request) internals =
         Returned (Respond {| Hapi.source := VUndefined; Hapi.statusCode := 200 |})) /\
    (queueName ∉ entry_name <$> data ->
       result w (Banderilla.clean request) internals =
         Returned (Respond
           {| Hapi.source := VObj [ ("statusCode", VNum 404);
                                    ("error", VStr "Not Found");
                                    ("message", VStr "Not Found") ];
              Hapi.statusCode := 404 |})).
Proof.
  intros Hqs Hname.
  exists (collect_stats (w _ (ParseRedisInfo (w _ (Info (client first)))))),
         (entry_of w (default ∅ (Hapi.query listing)) <$> first :: rest).
  unfold result.
  rewrite (run_index w listing internals first rest Hqs),
    (run_clean w internals (first :: rest) request Hqs), Hname.
  split; [reflexivity |].
  rewrite <- list_fmap_compose.
  change (entry_name ∘ entry_of w (default ∅ (Hapi.query listing))) with name.
  split.
  - intros Hin.
    destruct (find_queue (first :: rest) (VStr queueName)) as [queue |] eqn:Hfind;
      [reflexivity |].
    exfalso. apply list_elem_of_fmap in Hin as (q & -> & Hq).
    rewrite find_queue_None in Hfind. apply (Hfind q Hq). reflexivity.
  - intros Hout.
    destruct (find_queue (first :: rest) (VStr queueName)) as [queue |] eqn:Hfind;
      [| reflexivity].
    exfalso. apply Hout.
    apply find_queue_Some in Hfind as (before & after & Hlist & [= ->] & _).
    apply list_elem_of_fmap. exists queue. split; [reflexivity |].
    rewrite Hlist. apply elem_of_app. right. left.
Qed.

Lemma listed_names_are_the_accepted_names_witness :
  result Demo.world (Banderilla.clean (Demo.request "video" "" "failed")) Demo.started =
    Returned (Respond {| Hapi.source := VUndefined; Hapi.statusCode := 200 |}).
Proof.
  destruct (listed_names_are_the_accepted_names Demo.world Demo.started Demo.mail [Demo.video]
              (Demo.request "" "" "") (Demo.request "video" "" "failed") "video")
    as (stats & data & Hindex & Hlisted & _).
  - reflexivity.
  - reflexivity.
  - apply Hlisted. injection Hindex as _ <-. right. left.
Defined.

(** X15: the query of an index request selects jobs queue by queue and
    nothing else.  Two index requests served in the same state get the
    same stats, whatever their queries, and the same entry for every
    queue under whose name the two queries hold the same value. *)
Theorem index_query_selects_per_queue
    (w : World) (internals : Banderilla.Internals) (first : Queue) (rest : list Queue)
    (request request' : Hapi.Request) :
  let query := default ∅ (Hapi.query request) in
  let query' := default ∅ (Hapi.query request') in
  Banderilla.queues internals = Some (first :: rest) ->
  exists stats data data',
    result w (Banderilla.index request) internals = Returned (StatsData stats data) /\
    result w (Banderilla.index request') internals = Returned (StatsData stats data') /\
    forall (i : nat) (queue : Queue),
      (first :: rest) !! i = Some queue ->
      prop query (name queue) = prop query' (name queue) ->
      data !! i = data' !! i.
Proof.
  intros query query' Hqs.
  exists (collect_stats (w _ (ParseRedisInfo (w _ (Info (client first)))))),
         (entry_of w query <$> first :: rest),
         (entry_of w query' <$> first :: rest).
  unfold result.
  rewrite (run_index w request internals first rest Hqs),
    (run_index w request' internals first rest Hqs).
  split; [reflexivity |]. split; [reflexivity |].
  intros i queue Hi Hsame.
  rewrite !list_lookup_fmap, Hi. simpl. f_equal.
  unfold entry_of, status_filter. rewrite Hsame. reflexivity.
Qed.

Lemma index_query_selects_per_queue_witness :
  exists stats data data',
    result Demo.world (Banderilla.index (Demo.request "" "" "")) Demo.started =
      Returned (StatsData stats data) /\
    result Demo.world (Banderilla.index Demo.bare) Demo.started =
      Returned (StatsData stats data').
Proof.
  destruct (index_query_selects_per_queue Demo.world Demo.started Demo.mail [Demo.video]
              (Demo.request "" "" "") Demo.bare) as (stats & data & data' & H & H' & _).
  - reflexivity.
  - exists stats, data, data'. split; [exact H | exact H'].
Defined.

